(** * Confidence calibration: a shallow embedding of
      [ai_model/confidence_calibration.py] and its properties.

    Numbers are modelled as real numbers: NumPy's float arrays become lists
    of [R], and the rounding of floating point is not modelled.  Where a
    statement depends on the overflow of binary64 (temperature scaling at
    very small temperatures), the module [Ieee] adds the infinities and
    nan to the finite numbers.  Python
    exceptions are values of [exn] carried by the [result] monad; NumPy's
    [nan] (the mean of an empty array) is [None] in an [option R].
    Library calls whose code is not part of this repository (Keras, SciPy,
    scikit-learn, the file system) are parameters of the sections that use
    them. *)

From Stdlib Require Import Reals Lra Lia List.
From stdpp Require Import gmap strings.
Import ListNotations.
Local Open Scope R_scope.

(** ** Exceptions and the error monad *)

Inductive exn : Set :=
| IndexError
| ValueError
| ZeroDivisionError
| AxisError
| KeyError
| TypeError
| AttributeError
| OSError.

Inductive result (A : Type) : Type :=
| Ok (a : A)
| Raise (e : exn).
Arguments Ok {A} a.
Arguments Raise {A} e.

#[export] Instance result_ret : MRet result := fun A a => Ok a.
#[export] Instance result_bind : MBind result := fun A B k r =>
  match r with
  | Ok a => k a
  | Raise e => Raise e
  end.

Definition raises {A} (r : result A) : Prop := exists e, r = Raise e.

(** Left fold of a fallible step, as a [for] loop that updates one variable. *)
Fixpoint for_each {A B} (step : B -> A -> result B) (l : list A) (acc : B)
  : result B :=
  match l with
  | [] => Ok acc
  | a :: l' => acc' ← step acc a; for_each step l' acc'
  end.

(** ** Arrays *)

#[export] Instance Rle_decision (a b : R) : Decision (a <= b) := Rle_dec a b.
#[export] Instance Rlt_decision (a b : R) : Decision (a < b) := Rlt_dec a b.

(** A two-dimensional array: [shape = (length rows, ncols)].  The column
    count is kept apart from the rows because an array with no rows still
    has one. *)
Record array2 (A : Type) : Type := Array2 { ncols : nat; rows : list (list A) }.
Arguments Array2 {A} ncols rows.
Arguments ncols {A} a.
Arguments rows {A} a.

Definition wf_array2 {A} (a : array2 A) : Prop :=
  Forall (fun r => length r = ncols a) (rows a).

Definition shape0 {A} (a : array2 A) : nat := length (rows a).
Definition shape1 {A} (a : array2 A) : nat := ncols a.
Definition flat {A} (a : array2 A) : list A := concat (rows a).

Definition same_shape {A B} (a : array2 A) (b : array2 B) : bool :=
  (shape0 a =? shape0 b)%nat && (shape1 a =? shape1 b)%nat.

(** The arrays the calibrator receives as labels: one-dimensional (class
    indices, stored as the reals [INR k]) or two-dimensional (one-hot). *)
Inductive ndarray : Type :=
| Arr1 (v : list R)
| Arr2 (m : array2 R).

Definition np_sum (l : list R) : R := foldr Rplus 0 l.

(** [np.mean] of a non-empty array. *)
Definition mean (l : list R) : R := np_sum l / INR (length l).

(** [np.mean] in general: [nan] (here [None]) on an empty array. *)
Definition np_mean (l : list R) : option R :=
  match l with
  | [] => None
  | _ => Some (mean l)
  end.

(** [np.linspace(start, stop, num)]. *)
Definition np_linspace (start stop : R) (num : nat) : list R :=
  map (fun i => start + INR i * ((stop - start) / INR (num - 1))) (seq 0 num).

(** [a[mask]] on flattened data: the entries whose mask bit is set. *)
Definition select {A} (mask : list bool) (l : list A) : list A :=
  map snd (List.filter fst (combine mask l)).

(** [np.sum(mask)]: the number of set bits. *)
Definition mask_count (mask : array2 bool) : nat :=
  length (List.filter (fun b : bool => b) (flat mask)).

(** [y[mask]] for a two-dimensional boolean mask: the mask must have the
    shape of [y]. *)
Definition bool_index (y : ndarray) (mask : array2 bool) : result (list R) :=
  match y with
  | Arr1 _ => Raise IndexError
  | Arr2 m =>
      if same_shape m mask then Ok (select (flat mask) (flat m))
      else Raise IndexError
  end.

(** [y[:, i]]. *)
Definition column (y : ndarray) (i : nat) : result (list R) :=
  match y with
  | Arr1 _ => Raise IndexError
  | Arr2 m =>
      if (i <? ncols m)%nat then Ok (map (fun r => nth i r 0) (rows m))
      else Raise IndexError
  end.

(** ** Metric engine *)

Module Metrics.

(** [np.logical_and(p >= bin_lower, p < bin_upper)] on one entry. *)
Definition in_bin (bin_lower bin_upper p : R) : bool :=
  bool_decide (bin_lower <= p) && bool_decide (p < bin_upper).

Definition in_bin_mask (P : array2 R) (bin_lower bin_upper : R) : array2 bool :=
  Array2 (ncols P) (map (map (in_bin bin_lower bin_upper)) (rows P)).

(** [zip(bin_boundaries[:-1], bin_boundaries[1:])]. *)
Definition bins (n_bins : nat) : list (R * R) :=
  let bin_boundaries := np_linspace 0 1 (n_bins + 1) in
  let bin_lowers := removelast bin_boundaries in
  let bin_uppers := tl bin_boundaries in
  combine bin_lowers bin_uppers.

(** One iteration of the loop of [_calculate_ece]. *)
Definition ece_step (P : array2 R) (y_true : ndarray) (ece : R) (b : R * R)
  : result R :=
  let mask := in_bin_mask P (fst b) (snd b) in
  let bin_size := mask_count mask in
  if (0 <? bin_size)%nat then
    labels ← bool_index y_true mask;
    let bin_accuracy := np_sum labels / INR bin_size in
    let bin_confidence := mean (select (flat mask) (flat P)) in
    Ok (ece + INR bin_size * Rabs (bin_accuracy - bin_confidence))
  else Ok ece.

Definition _calculate_ece (P : array2 R) (y_true : ndarray) (n_bins : nat)
  : result R :=
  ece ← for_each (ece_step P y_true) (bins n_bins) 0;
  if (shape0 P =? 0)%nat then Raise ZeroDivisionError
  else Ok (ece / INR (shape0 P)).

Record reliability_data : Type := Reliability {
  accuracies : list R;
  confidences : list R;
  bin_sizes : list nat
}.

(** One iteration of the loop of [_calculate_reliability]. *)
Definition reliability_step (P : array2 R) (y_true : ndarray)
    (acc : reliability_data) (b : R * R) : result reliability_data :=
  let mask := in_bin_mask P (fst b) (snd b) in
  let bin_size := mask_count mask in
  if (0 <? bin_size)%nat then
    labels ← bool_index y_true mask;
    let bin_accuracy := np_sum labels / INR bin_size in
    let bin_confidence := mean (select (flat mask) (flat P)) in
    Ok (Reliability (accuracies acc ++ [bin_accuracy])
                    (confidences acc ++ [bin_confidence])
                    (bin_sizes acc ++ [bin_size]))
  else Ok acc.

Definition _calculate_reliability (P : array2 R) (y_true : ndarray)
    (n_bins : nat) : result reliability_data :=
  for_each (reliability_step P y_true) (bins n_bins) (Reliability [] [] []).

End Metrics.

(** ** Softmax and temperature scaling *)

Module Temperature.

(** The additive floor [1e-8] used before every logarithm. *)
Definition floor_eps : R := 1e-8.

(** Maximum of a row; rows are non-empty wherever it is used. *)
Definition row_max (r : list R) : R :=
  match r with
  | [] => 0
  | x :: t => foldl Rmax x t
  end.

(** [np.max(x, axis=1)]: a reduction over an axis of size zero raises. *)
Definition np_max_axis1 (x : array2 R) : result (list R) :=
  if (ncols x =? 0)%nat then Raise ValueError else Ok (map row_max (rows x)).

(** [_softmax(x, axis=1)], the only axis the module uses. *)
Definition _softmax (x : array2 R) : result (array2 R) :=
  maxes ← np_max_axis1 x;
  let exp_x := zip_with (fun r m => map (fun v => exp (v - m)) r) (rows x) maxes in
  Ok (Array2 (ncols x) (map (fun r => map (fun e => e / np_sum r) r) exp_x)).

(** [np.log(y_pred_proba + 1e-8) / temperature].  [ln] is NumPy's [log] on
    positive arguments, the only ones the statements below give it. *)
Definition scaled_logits (P : array2 R) (temperature : R) : array2 R :=
  Array2 (ncols P)
    (map (map (fun p => ln (p + floor_eps) / temperature)) (rows P)).

Definition _apply_temperature_scaling (P : array2 R) (temperature : R)
  : result (array2 R) :=
  _softmax (scaled_logits P temperature).

(** *** Broadcasting of [y_true * m] *)

Definition as_2d (y : ndarray) : array2 R :=
  match y with
  | Arr1 v => Array2 (length v) [v]
  | Arr2 m => m
  end.

Definition broadcast_dim (a b : nat) : option nat :=
  if (a =? b)%nat then Some a
  else if (a =? 1)%nat then Some b
  else if (b =? 1)%nat then Some a
  else None.

Definition bget (a : array2 R) (i j : nat) : R :=
  nth (if (shape1 a =? 1)%nat then O else j)
      (nth (if (shape0 a =? 1)%nat then O else i) (rows a) []) 0.

Definition np_multiply (y : ndarray) (m : array2 R) : result (array2 R) :=
  let a := as_2d y in
  match broadcast_dim (shape0 a) (shape0 m), broadcast_dim (shape1 a) (shape1 m) with
  | Some n, Some c =>
      Ok (Array2 c (map (fun i => map (fun j => bget a i j * bget m i j) (seq 0 c))
                        (seq 0 n)))
  | _, _ => Raise ValueError
  end.

(** The closure [objective] of [temperature_scaling]: the negative
    log-likelihood at one temperature; [None] is [nan]. *)
Definition objective (P : array2 R) (y_true : ndarray) (temperature : R)
  : result (option R) :=
  scaled_proba ← _softmax (scaled_logits P temperature);
  let logp := Array2 (ncols scaled_proba)
                (map (map (fun p => ln (p + floor_eps))) (rows scaled_proba)) in
  prod ← np_multiply y_true logp;
  Ok (Ropp <$> np_mean (map np_sum (rows prod))).

Section Fit.
(** [scipy.optimize.minimize(fun, x0, bounds)], returning [result.x]. *)
Variable minimize :
  (R -> result (option R)) -> R -> list (R * R) -> result (list R).

Definition temperature_scaling (P : array2 R) (y_true : ndarray) : result R :=
  x ← minimize (objective P y_true) 1 [(0.1, 10)];
  match x with
  | [] => Raise IndexError
  | optimal_temperature :: _ => Ok optimal_temperature
  end.
End Fit.

End Temperature.

(** ** Reductions the scalers use *)

(** Index of the first maximum, scanning from position [i]. *)
Fixpoint argmax_from (best : R) (best_i i : nat) (l : list R) : nat :=
  match l with
  | [] => best_i
  | x :: t =>
      if bool_decide (best < x) then argmax_from x i (S i) t
      else argmax_from best best_i (S i) t
  end.

Definition argmax (l : list R) : nat :=
  match l with
  | [] => O
  | x :: t => argmax_from x 0 1 t
  end.

(** [np.argmax(y, axis=1)]. *)
Definition np_argmax_axis1 (y : ndarray) : result (list nat) :=
  match y with
  | Arr1 _ => Raise AxisError
  | Arr2 m =>
      if (ncols m =? 0)%nat then Raise ValueError else Ok (map argmax (rows m))
  end.

(** [np.max(y, axis=1)] on a label array. *)
Definition np_max_axis1_nd (y : ndarray) : result (list R) :=
  match y with
  | Arr1 _ => Raise AxisError
  | Arr2 m => Temperature.np_max_axis1 m
  end.

(** ** The calibrator object *)

(** A fitted [LogisticRegression]: the two attributes the code reads. *)
Record fitted_lr : Type := FittedLR {
  coef_ : list (list R);
  intercept_ : list R
}.

Record calibration_metrics : Type := CalibrationMetrics {
  brier_score : option R;
  brier_scores_per_class : list R;
  ece : R;
  reliability : Metrics.reliability_data
}.

Record improvement : Type := Improvement {
  improvement_brier_score : option R;
  improvement_ece : R
}.

Record calibration_results : Type := CalibrationResults {
  original_metrics : calibration_metrics;
  temperature_metrics : calibration_metrics;
  results_calibration_params : gmap string R;
  results_improvement : improvement
}.

(** Subtraction of floats one of which may be [nan]. *)
Definition nan_sub (a b : option R) : option R :=
  x ← a; y ← b; Some (x - y).

(** What the environment lets the file system do during one call: whether
    [open(path, 'w')] and [mkdir] succeed, and how many chunk writes succeed
    before the device fails ([None]: all of them). *)
Record io_env : Type := IoEnv {
  open_ok : bool;
  mkdir_ok : bool;
  write_budget : option nat
}.

(** Files by path. *)
Abbreviation file_system := (gmap string string).

Section Calibrator.
(** Types and calls of the libraries. *)
Variable keras_model : Type.
Variable images : Type.
Variable history_entry : Type.
Variable isotonic_model : Type.
Variable load_keras_model : string -> result keras_model.
Variable predict : keras_model -> images -> result (array2 R).
Variable brier_score_loss : list R -> list R -> result R.
Variable minimize :
  (R -> result (option R)) -> R -> list (R * R) -> result (list R).
Variable lr_fit : array2 R -> list nat -> result fitted_lr.
Variable isotonic_fit : list R -> list R -> result isotonic_model.
Variable plot : array2 R -> ndarray -> string -> result unit.

Record calibrator : Type := Calibrator {
  model_path : string;
  model : option keras_model;
  calibration_params : gmap string R;
  calibration_history : list history_entry
}.

(** [ConfidenceCalibrator.__init__]. *)
Definition init (path : string) : calibrator :=
  Calibrator path None
    (<["temperature" := 1]> (<["platt_a" := 1]> (<["platt_b" := 0]> ∅)))
    [].

Definition set_param (self : calibrator) (k : string) (v : R) : calibrator :=
  Calibrator (model_path self) (model self)
    (<[k := v]> (calibration_params self)) (calibration_history self).

Definition get_param (self : calibrator) (k : string) : result R :=
  match calibration_params self !! k with
  | Some v => Ok v
  | None => Raise KeyError
  end.

(** [load_model]: the exception of Keras is re-raised. *)
Definition load_model (self : calibrator) : result unit * calibrator :=
  match load_keras_model (model_path self) with
  | Ok m =>
      (Ok (), Calibrator (model_path self) (Some m)
                (calibration_params self) (calibration_history self))
  | Raise e => (Raise e, self)
  end.

(** [prepare_calibration_data], given the loaded model. *)
Definition prepare_calibration_data (m : keras_model) (X_val : images)
    (y_val : ndarray) : result (array2 R * ndarray) :=
  predictions ← predict m X_val;
  y_true_binary ← np_argmax_axis1 y_val;
  Ok (predictions, Arr1 (map INR y_true_binary)).

(** The loop of [evaluate_calibration] over the classes. *)
Definition brier_step (P : array2 R) (y_true : ndarray)
    (brier_scores : list R) (i : nat) : result (list R) :=
  yt ← column y_true i;
  yp ← column (Arr2 P) i;
  brier ← brier_score_loss yt yp;
  Ok (brier_scores ++ [brier]).

Definition evaluate_calibration (P : array2 R) (y_true : ndarray)
    (method : string) : result calibration_metrics :=
  brier_scores ← for_each (brier_step P y_true) (seq 0 (shape1 P)) [];
  e ← Metrics._calculate_ece P y_true 15;
  reliability_data ← Metrics._calculate_reliability P y_true 10;
  Ok (CalibrationMetrics (np_mean brier_scores) brier_scores e reliability_data).

Definition index0 {A} (l : list A) : result A :=
  match l with
  | [] => Raise IndexError
  | a :: _ => Ok a
  end.

(** [platt_scaling]. *)
Definition platt_features (P : array2 R) : result (array2 R) :=
  maxes ← Temperature.np_max_axis1 P;
  Ok (Array2 1 (map (fun m => [m]) maxes)).

Definition platt_targets (y_true : ndarray) : result (list nat) :=
  np_argmax_axis1 y_true.

Definition platt_scaling (P : array2 R) (y_true : ndarray) : result (R * R) :=
  y_pred_max ← platt_features P;
  target ← platt_targets y_true;
  lr ← lr_fit y_pred_max target;
  row ← index0 (coef_ lr);
  platt_a ← index0 row;
  platt_b ← index0 (intercept_ lr);
  Ok (platt_a, platt_b).

(** [isotonic_calibration]. *)
Definition isotonic_calibration (P : array2 R) (y_true : ndarray)
  : result isotonic_model :=
  y_pred_max ← Temperature.np_max_axis1 P;
  y_true_max ← np_max_axis1_nd y_true;
  isotonic_fit y_pred_max y_true_max.
(** *** Persistence *)

(** The dictionary [calibration_data] built by [save_calibration_params]. *)
Record calibration_data : Type := CalibrationData {
  data_temperature : R;
  data_platt_a : R;
  data_platt_b : R;
  data_calibration_history : list history_entry
}.

(** The JSON encoder behind [json.dump(data, f, indent=2)]: the chunks it
    yields one by one, and the exception it raises after them, if any. *)
Variable iterencode : calibration_data -> list string * option exn.

(** [f.write(chunk)] for each chunk in turn. *)
Fixpoint write_chunks (chunks : list string) (budget : option nat)
    (content : string) : result unit * string :=
  match chunks with
  | [] => (Ok (), content)
  | c :: rest =>
      match budget with
      | Some O => (Raise OSError, content)
      | Some (S b) => write_chunks rest (Some b) (content +:+ c)
      | None => write_chunks rest None (content +:+ c)
      end
  end.

Definition json_dump (data : calibration_data) (budget : option nat)
    (content : string) : result unit * string :=
  match write_chunks (fst (iterencode data)) budget content with
  | (Ok _, content') =>
      match snd (iterencode data) with
      | Some e => (Raise e, content')
      | None => (Ok (), content')
      end
  | failed => failed
  end.

Definition build_calibration_data (self : calibrator) : result calibration_data :=
  temperature ← get_param self "temperature";
  platt_a ← get_param self "platt_a";
  platt_b ← get_param self "platt_b";
  Ok (CalibrationData temperature platt_a platt_b (calibration_history self)).

(** [save_calibration_params]: [open(save_path, 'w')] truncates the file,
    the [with] block closes it on every exit. *)
Definition save_calibration_params (self : calibrator) (save_path : string)
    (env : io_env) (fs : file_system) : result unit * file_system :=
  match build_calibration_data self with
  | Raise e => (Raise e, fs)
  | Ok data =>
      if open_ok env then
        let out := json_dump data (write_budget env) "" in
        (fst out, <[save_path := snd out]> fs)
      else (Raise OSError, fs)
  end.

(** *** The orchestrator *)

(** Methods that read and update the calibrator and the file system. *)
Definition M (A : Type) : Type :=
  calibrator * file_system -> result A * (calibrator * file_system).

Definition st_ret {A} (a : A) : M A := fun w => (Ok a, w).

Definition st_bind {A B} (c : M A) (k : A -> M B) : M B := fun w =>
  match c w with
  | (Ok a, w') => k a w'
  | (Raise e, w') => (Raise e, w')
  end.

Definition lift {A} (r : result A) : M A := fun w => (r, w).

Notation "'do' x <- c ; k" := (st_bind c (fun x => k))
  (at level 10, x name, c at level 99, k at level 200).

Definition get_self : M calibrator := fun w => (Ok (fst w), w).

Definition assign (k : string) (v : R) : M unit := fun w =>
  (Ok (), (set_param (fst w) k v, snd w)).

(** [if self.model is None: self.load_model()]. *)
Definition ensure_model : M unit := fun w =>
  match model (fst w) with
  | Some _ => (Ok (), w)
  | None => let out := load_model (fst w) in (fst out, (snd out, snd w))
  end.

Definition get_model : M keras_model := fun w =>
  match model (fst w) with
  | Some m => (Ok m, w)
  | None => (Raise AttributeError, w)
  end.

(** [results_dir.mkdir(exist_ok=True)]. *)
Definition mkdir (env : io_env) : M unit := fun w =>
  (if mkdir_ok env then Ok () else Raise OSError, w).

Definition save (save_path : string) (env : io_env) : M unit := fun w =>
  let out := save_calibration_params (fst w) save_path env (snd w) in
  (fst out, (fst w, snd out)).

Definition calibrate_model (X_val : images) (y_val : ndarray) (env : io_env)
  : M calibration_results :=
  do _ <- ensure_model;
  do m <- get_model;
  do data <- lift (prepare_calibration_data m X_val y_val);
  let y_pred_proba := fst data in
  let y_true_binary := snd data in
  do original <- lift (evaluate_calibration y_pred_proba y_true_binary "original");
  do optimal_temp <-
    lift (Temperature.temperature_scaling minimize y_pred_proba y_true_binary);
  do _ <- assign "temperature" optimal_temp;
  do temp_scaled_proba <-
    lift (Temperature._apply_temperature_scaling y_pred_proba optimal_temp);
  do temp <- lift (evaluate_calibration temp_scaled_proba y_true_binary "temperature");
  do platt <- lift (platt_scaling y_pred_proba y_true_binary);
  do _ <- assign "platt_a" (fst platt);
  do _ <- assign "platt_b" (snd platt);
  do _ <- lift (isotonic_calibration y_pred_proba y_true_binary);
  do _ <- mkdir env;
  do _ <- save "results/calibration_params.json" env;
  do _ <- lift (plot y_pred_proba y_true_binary "results/calibration_curves.png");
  do self <- get_self;
  st_ret (CalibrationResults original temp (calibration_params self)
            (Improvement (nan_sub (brier_score original) (brier_score temp))
                         (ece original - ece temp))).
End Calibrator.

Arguments Calibrator {keras_model history_entry} _ _ _ _.
Arguments model_path {keras_model history_entry} _.
Arguments model {keras_model history_entry} _.
Arguments calibration_params {keras_model history_entry} _.
Arguments calibration_history {keras_model history_entry} _.
Arguments set_param {keras_model history_entry} _ _ _.
Arguments get_param {keras_model history_entry} _ _.
Arguments load_model {keras_model history_entry} _ _.
Arguments build_calibration_data {keras_model history_entry} _.
Arguments save_calibration_params {keras_model history_entry} _ _ _ _ _.

(** ** The specification's wording and auxiliary notions *)

(** The flattened (probability, label) entries of a run. *)
Definition entries (P Y : array2 R) : list (R * R) :=
  combine (flat P) (flat Y).

(** The entries whose probability lies in the bin [[bin_lower, bin_upper)]. *)
Definition bin_entries (es : list (R * R)) (b : R * R) : list (R * R) :=
  List.filter (fun e => Metrics.in_bin (fst b) (snd b) (fst e)) es.

(** [binCount * |binAccuracy - binConfidence|] of the entries of one bin. *)
Definition bin_gap (es : list (R * R)) : R :=
  let binCount := INR (length es) in
  let binAccuracy := np_sum (map snd es) / binCount in
  let binConfidence := np_sum (map fst es) / binCount in
  binCount * Rabs (binAccuracy - binConfidence).

(** The loop of [_calculate_ece] read on the entries: the sum of the gaps
    over the non-empty bins of the code, every one of which is open above. *)
Definition gap_sum (P Y : array2 R) (n_bins : nat) : R :=
  np_sum (map bin_gap
            (List.filter (fun es => (0 <? length es)%nat)
               (map (bin_entries (entries P Y)) (Metrics.bins n_bins)))).




(** Validity of the inputs: a probability matrix and one-hot labels. *)
Definition probability_row (r : list R) : Prop :=
  Forall (fun p => 0 <= p <= 1) r /\ np_sum r = 1.

Definition probability_matrix (P : array2 R) : Prop :=
  wf_array2 P /\ Forall probability_row (rows P).

Definition one_hot_row (r : list R) : Prop :=
  Forall (fun y => y = 0 \/ y = 1) r /\ np_sum r = 1.

Definition one_hot (Y : array2 R) : Prop :=
  wf_array2 Y /\ Forall one_hot_row (rows Y).

(** The binary target the specification gives the Platt fit: whether the
    predicted class is the true class. *)
Definition prediction_correct (P Y : array2 R) : list nat :=
  zip_with (fun p y => if (argmax p =? argmax y)%nat then 1%nat else 0%nat)
    (rows P) (rows Y).


(** Consecutive pairs of a list of boundaries. *)
Definition adjacent (bb : list R) : list (R * R) :=
  combine (removelast bb) (tl bb).

(** The Platt fit as the specification words it: the binary target is
    the correctness of the prediction. *)
Definition platt_scaling_spec (lr_fit : array2 R -> list nat -> result fitted_lr)
    (P Y : array2 R) : result (R * R) :=
  y_pred_max ← platt_features P;
  lr ← lr_fit y_pred_max (prediction_correct P Y);
  row ← index0 (coef_ lr);
  platt_a ← index0 row;
  platt_b ← index0 (intercept_ lr);
  Ok (platt_a, platt_b).

(** What the file holds after the writes that succeeded. *)
Definition written (content : string) (chunks : list string) : string :=
  foldl String.append content chunks.

(** The number of chunk writes that succeed under a budget. *)
Definition writes_done (budget : option nat) (chunks : list string) : nat :=
  match budget with
  | Some b => Nat.min b (length chunks)
  | None => length chunks
  end.

(** A method that leaves the history of the calibrator as it found it. *)
Definition keeps_history {K H A : Type} (c : M K H A) : Prop :=
  forall w, calibration_history (fst (snd (c w)))
            = calibration_history (fst w).

(** One row of the softmax. *)
Definition softmax_row (r : list R) : list R :=
  let exp_x := map (fun v => exp (v - Temperature.row_max r)) r in
  map (fun e => e / np_sum exp_x) exp_x.

(** The accuracy and the confidence of the entries of one bin. *)
Definition bin_accuracy (es : list (R * R)) : R :=
  np_sum (map snd es) / INR (length es).

Definition bin_confidence (es : list (R * R)) : R := mean (map fst es).

(** The entries of each non-empty bin, in bin order. *)
Definition nonempty_bins (P Y : array2 R) (n_bins : nat) : list (list (R * R)) :=
  List.filter (fun es => (0 <? length es)%nat)
    (map (bin_entries (entries P Y)) (Metrics.bins n_bins)).

(** How many probabilities lie in [[lo, hi)], and how many are at least [lo]. *)
Definition count_in (lo hi : R) (ps : list R) : nat :=
  length (List.filter (Metrics.in_bin lo hi) ps).

Definition count_from (lo : R) (ps : list R) : nat :=
  length (List.filter (fun p => bool_decide (lo <= p)) ps).

(** The softmax of a row without the shift by the maximum. *)
Definition plain_softmax_row (r : list R) : list R :=
  map (fun v => exp v / np_sum (map exp r)) r.

(** A row of [p + 1e-8] raised to the power [1/T], renormalised. *)
Definition power_row (temperature : R) (r : list R) : list R :=
  let w := map (fun p => Rpower (p + Temperature.floor_eps) (1 / temperature)) r in
  map (fun x => x / np_sum w) w.

(** The one-hot row of length [num_classes] for class [k]. *)
Definition one_hot_at (num_classes k : nat) : list R :=
  map (fun j => if (j =? k)%nat then 1 else 0) (seq 0 num_classes).

(** Labels that do not have the shape of the probability matrix. *)
Definition misshapen (P : array2 R) (y_true : ndarray) : Prop :=
  match y_true with
  | Arr1 _ => True
  | Arr2 Y => same_shape Y P = false
  end.



(** ** The configuration and the entry point *)

(** The values held by the dictionaries of [config.py]. *)
Inductive config_value : Type :=
| CfgStr (s : string)
| CfgInt (n : nat)
| CfgFloat (r : R)
| CfgShape (dims : list nat)
| CfgNames (names : list string).

Definition class_names : list string :=
    ["Apple___Apple_scab";
     "Apple___Black_rot";
     "Apple___Cedar_apple_rust";
     "Apple___healthy";
     "Cherry___healthy";
     "Cherry___Powdery_mildew";
     "Corn___Cercospora_leaf_spot Gray_leaf_spot";
     "Corn___Common_rust";
     "Corn___healthy";
     "Corn___Northern_Leaf_Blight";
     "Grape___Black_rot";
     "Grape___Esca_(Black_Measles)";
     "Grape___healthy";
     "Grape___Leaf_blight_(Isariopsis_Leaf_Spot)";
     "Peach___Bacterial_spot";
     "Peach___healthy";
     "Pepper_bell___Bacterial_spot";
     "Pepper_bell___healthy";
     "Potato___Early_blight";
     "Potato___healthy";
     "Potato___Late_blight";
     "Strawberry___healthy";
     "Strawberry___Leaf_scorch";
     "Tomato___Bacterial_spot";
     "Tomato___Early_blight";
     "Tomato___healthy";
     "Tomato___Late_blight";
     "Tomato___Leaf_Mold";
     "Tomato___Septoria_leaf_spot";
     "Tomato___Spider_mites Two-spotted_spider_mite";
     "Tomato___Target_Spot";
     "Tomato___Tomato_mosaic_virus";
     "Tomato___Tomato_Yellow_Leaf_Curl_Virus";
     "Not_a_Plant"]%string.

(** [config.MODEL_CONFIG], key by key. *)
Definition MODEL_CONFIG : gmap string config_value :=
  <["architecture" := CfgStr "mobilenet_v2"]>
  (<["input_shape" := CfgShape [224; 224; 3]%nat]>
  (<["learning_rate" := CfgFloat 0.001]>
  (<["epochs" := CfgInt 50]>
  (<["early_stopping_patience" := CfgInt 10]>
  (<["reduce_lr_patience" := CfgInt 5]>
  (<["class_names" := CfgNames class_names]> ∅)))))).

(** [d[k]] on a dictionary. *)
Definition getitem (d : gmap string config_value) (k : string)
  : result config_value :=
  match d !! k with
  | Some v => Ok v
  | None => Raise KeyError
  end.

Section Main.
Variables keras_model images history_entry isotonic_model : Type.
Variable load_keras_model : string -> result keras_model.
Variable predict : keras_model -> images -> result (array2 R).
Variable brier_score_loss : list R -> list R -> result R.
Variable minimize :
  (R -> result (option R)) -> R -> list (R * R) -> result (list R).
Variable lr_fit : array2 R -> list nat -> result fitted_lr.
Variable isotonic_fit : list R -> list R -> result isotonic_model.
Variable plot : array2 R -> ndarray -> string -> result unit.
Variable iterencode : calibration_data history_entry -> list string * option exn.
(** The random generator: [np.random.random((n_samples, *input_shape))]
    and [to_categorical(np.random.randint(0, n_classes, n_samples),
    n_classes)]. *)
Variable random_images : nat -> config_value -> result images.
Variable random_labels : config_value -> nat -> result ndarray.

(** The three lookups of the summary that [main] prints. *)
Definition print_summary (results : calibration_results) : result unit :=
  match results_calibration_params results !! "temperature",
        results_calibration_params results !! "platt_a",
        results_calibration_params results !! "platt_b" with
  | Some _, Some _, Some _ => Ok ()
  | _, _, _ => Raise KeyError
  end.

(** The synthetic validation data of [main]: [n_classes] and the input
    shape are read from the configuration first. *)
Definition synthetic_data (config : gmap string config_value)
  : result (images * ndarray) :=
  n_classes ← getitem config "num_classes";
  input_shape ← getitem config "input_shape";
  X_val ← random_images 1000 input_shape;
  y_val_onehot ← random_labels n_classes 1000;
  Ok (X_val, y_val_onehot).

(** [main].  [config] is the dictionary [MODEL_CONFIG] that the module
    imports; [env_main] rules the [mkdir] of [main], [env] the calls inside
    [calibrate_model]. *)
Definition main (config : gmap string config_value) (env_main env : io_env)
    (fs : file_system) : result unit * file_system :=
  if mkdir_ok env_main then
    match fs !! "models/mobilenet_v2_final.h5" with
    | None => (Ok (), fs)
    | Some _ =>
        let calibrator :=
          init keras_model history_entry "models/mobilenet_v2_final.h5" in
        match synthetic_data config with
        | Raise e => (Raise e, fs)
        | Ok data =>
            let out :=
              calibrate_model keras_model images history_entry isotonic_model
                load_keras_model predict brier_score_loss minimize lr_fit
                isotonic_fit plot iterencode (fst data) (snd data) env
                (calibrator, fs) in
            (results ← fst out; print_summary results, snd (snd out))
        end
    end
  else (Raise OSError, fs).
End Main.

(** ** Overflow: the infinities and nan of binary64 *)

Module Ieee.

(** A binary64 value as far as overflow is concerned: a finite number, an
    infinity or nan.  The rounding of finite results and the sign of zero
    are not modelled; a zero divisor counts as [+0.0]. *)
Inductive float : Type :=
| Fin (r : R)
| PInf
| NInf
| NaN.

(** The largest finite binary64 number, and the least magnitude that
    rounds to an infinity (to nearest, ties to even). *)
Definition max_float : R := IZR (2 ^ 1024 - 2 ^ 971).
Definition overflow_threshold : R := IZR (2 ^ 1024 - 2 ^ 970).

Definition round (r : R) : float :=
  if bool_decide (overflow_threshold <= r) then PInf
  else if bool_decide (r <= - overflow_threshold) then NInf
  else Fin r.

Definition fneg (a : float) : float :=
  match a with
  | Fin x => Fin (- x)
  | PInf => NInf
  | NInf => PInf
  | NaN => NaN
  end.

Definition fadd (a b : float) : float :=
  match a, b with
  | NaN, _ | _, NaN => NaN
  | PInf, NInf | NInf, PInf => NaN
  | PInf, _ | _, PInf => PInf
  | NInf, _ | _, NInf => NInf
  | Fin x, Fin y => round (x + y)
  end.

Definition fsub (a b : float) : float := fadd a (fneg b).

Definition fdiv (a b : float) : float :=
  match a, b with
  | NaN, _ | _, NaN => NaN
  | Fin x, Fin y =>
      if bool_decide (y < 0) || bool_decide (0 < y) then round (x / y)
      else if bool_decide (0 < x) then PInf
      else if bool_decide (x < 0) then NInf
      else NaN
  | Fin _, _ => Fin 0
  | PInf, Fin y => if bool_decide (y < 0) then NInf else PInf
  | NInf, Fin y => if bool_decide (y < 0) then PInf else NInf
  | _, _ => NaN
  end.

(** [np.log]: nan below zero, minus infinity at zero. *)
Definition flog (a : float) : float :=
  match a with
  | Fin x =>
      if bool_decide (0 < x) then Fin (ln x)
      else if bool_decide (x < 0) then NaN
      else NInf
  | PInf => PInf
  | _ => NaN
  end.

Definition fexp (a : float) : float :=
  match a with
  | Fin x => round (exp x)
  | PInf => PInf
  | NInf => Fin 0
  | NaN => NaN
  end.

(** [np.maximum]: nan wins. *)
Definition fmax (a b : float) : float :=
  match a, b with
  | NaN, _ | _, NaN => NaN
  | PInf, _ | _, PInf => PInf
  | NInf, c | c, NInf => c
  | Fin x, Fin y => Fin (Rmax x y)
  end.

Definition fsum (l : list float) : float := foldr fadd (Fin 0) l.

Definition row_max (r : list float) : float :=
  match r with
  | [] => Fin 0
  | x :: t => foldl fmax x t
  end.

Definition np_max_axis1 (x : array2 float) : result (list float) :=
  if (ncols x =? 0)%nat then Raise ValueError else Ok (map row_max (rows x)).

(** [_softmax(x, axis=1)] on binary64 values. *)
Definition _softmax (x : array2 float) : result (array2 float) :=
  maxes ← np_max_axis1 x;
  let exp_x :=
    zip_with (fun r m => map (fun v => fexp (fsub v m)) r) (rows x) maxes in
  Ok (Array2 (ncols x) (map (fun r => map (fun e => fdiv e (fsum r)) r) exp_x)).

(** [np.log(y_pred_proba + 1e-8) / temperature]. *)
Definition scaled_logits (P : array2 float) (temperature : float)
  : array2 float :=
  Array2 (ncols P)
    (map (map (fun p =>
                 fdiv (flog (fadd p (Fin Temperature.floor_eps))) temperature))
       (rows P)).

Definition _apply_temperature_scaling (P : array2 float) (temperature : float)
  : result (array2 float) :=
  _softmax (scaled_logits P temperature).

(** An array of finite values. *)
Definition of_reals (P : array2 R) : array2 float :=
  Array2 (ncols P) (map (map Fin) (rows P)).

End Ieee.

(** * Properties *)

(** ** Evaluation on concrete arrays *)

Ltac norm_nat_consts :=
  rewrite ?INR_IZR_INZ;
  repeat match goal with
  | |- context [Z.of_nat ?n] =>
      let v := eval vm_compute in (Z.of_nat n) in
      change (Z.of_nat n) with v
  end.

Ltac decide_cmp :=
  repeat match goal with
  | |- context [bool_decide (?a <= ?b)] =>
      first [ rewrite (bool_decide_eq_true_2 (a <= b)) by lra
            | rewrite (bool_decide_eq_false_2 (a <= b)) by lra ]
  | |- context [bool_decide (?a < ?b)] =>
      first [ rewrite (bool_decide_eq_true_2 (a < b)) by lra
            | rewrite (bool_decide_eq_false_2 (a < b)) by lra ]
  end.

Ltac eval_Rabs :=
  repeat match goal with
  | |- context [Rabs ?x] =>
      first [ rewrite (Rabs_pos_eq x) by lra | rewrite (Rabs_left1 x) by lra ]
  end.

(** Runs the binning loops on arrays of numerals. *)
Ltac run_metric :=
  unfold Metrics._calculate_reliability, Metrics._calculate_ece, Metrics.bins,
    np_linspace;
  cbn [seq map removelast tl combine Nat.add Nat.sub];
  norm_nat_consts;
  repeat (progress (
    cbn [for_each mbind result_bind];
    unfold Metrics.reliability_step, Metrics.ece_step, Metrics.in_bin_mask,
      mask_count, flat, Metrics.in_bin, bool_index, same_shape, shape0, shape1,
      select, mean, np_sum;
    cbn [map concat app fst snd rows ncols];
    decide_cmp;
    cbn [andb List.filter combine map fst snd length Nat.ltb Nat.leb Nat.eqb
         foldr mbind result_bind Metrics.accuracies Metrics.confidences
         Metrics.bin_sizes app concat rows ncols]));
  norm_nat_consts.

(** ** The expected calibration error *)

Lemma flat_in_bin_mask (P : array2 R) (lo hi : R) :
  flat (Metrics.in_bin_mask P lo hi) = map (Metrics.in_bin lo hi) (flat P).
Proof. unfold flat, Metrics.in_bin_mask. cbn [rows]. symmetry. apply concat_map. Qed.

Lemma length_flat {A} (a : array2 A) :
  wf_array2 a -> length (flat a) = (shape0 a * ncols a)%nat.
Proof.
  unfold wf_array2, flat, shape0. generalize (ncols a) as c.
  induction (rows a) as [|r rs IH]; intros c Hwf; cbn [concat length].
  - reflexivity.
  - inversion Hwf as [|? ? Hr Hrs]; subst.
    rewrite length_app, (IH _ Hrs). cbn [Nat.mul]. lia.
Qed.

Lemma same_shape_flat {A B} (a : array2 A) (b : array2 B) :
  wf_array2 a -> wf_array2 b -> same_shape a b = true ->
  length (flat a) = length (flat b).
Proof.
  intros Ha Hb Hs. rewrite !length_flat by assumption.
  unfold same_shape, shape1 in Hs.
  apply andb_true_iff in Hs as [H0 H1].
  apply Nat.eqb_eq in H0, H1. congruence.
Qed.

Lemma select_map {A} (f : R -> bool) (ps : list R) (zs : list A) :
  select (map f ps) zs =
  map snd (List.filter (fun e => f (fst e)) (combine ps zs)).
Proof.
  unfold select. revert zs.
  induction ps as [|p ps IH]; intros [|z zs]; cbn [map combine List.filter]; try reflexivity.
  cbn [fst]. destruct (f p); cbn [map snd]; rewrite IH; reflexivity.
Qed.

Lemma select_map_self (f : R -> bool) (ps : list R) (ys : list R) :
  length ps = length ys ->
  select (map f ps) ps =
  map fst (List.filter (fun e => f (fst e)) (combine ps ys)).
Proof.
  unfold select. revert ys.
  induction ps as [|p ps IH]; intros [|y ys] Hlen; cbn [map combine List.filter];
    try reflexivity; try discriminate.
  cbn [fst]. injection Hlen as Hlen.
  destruct (f p); cbn [map fst snd]; rewrite (IH ys Hlen); reflexivity.
Qed.

Lemma count_map (f : R -> bool) (ps : list R) (ys : list R) :
  length ps = length ys ->
  length (List.filter (fun b : bool => b) (map f ps)) =
  length (List.filter (fun e => f (fst e)) (combine ps ys)).
Proof.
  revert ys.
  induction ps as [|p ps IH]; intros [|y ys] Hlen; cbn [map combine List.filter];
    try reflexivity; try discriminate.
  cbn [fst]. injection Hlen as Hlen.
  destruct (f p); cbn [length]; rewrite (IH ys Hlen); reflexivity.
Qed.

Section EceRefinement.
Variables P Y : array2 R.
Hypothesis HP : wf_array2 P.
Hypothesis HY : wf_array2 Y.
Hypothesis Hshape : same_shape P Y = true.

Lemma same_shape_mask (lo hi : R) :
  same_shape Y (Metrics.in_bin_mask P lo hi) = true.
Proof.
  unfold same_shape, shape0, shape1, Metrics.in_bin_mask in *. cbn [rows ncols].
  rewrite length_map.
  apply andb_true_iff in Hshape as [H0 H1].
  apply Nat.eqb_eq in H0, H1. rewrite H0, H1, !Nat.eqb_refl. reflexivity.
Qed.

Lemma ece_step_gap (acc : R) (b : R * R) :
  Metrics.ece_step P (Arr2 Y) acc b =
  Ok (acc + np_sum (map bin_gap
                      (List.filter (fun es => (0 <? length es)%nat)
                         [bin_entries (entries P Y) b]))).
Proof.
  pose proof (same_shape_flat P Y HP HY Hshape) as Hlen.
  unfold Metrics.ece_step, bool_index, mask_count.
  rewrite same_shape_mask, flat_in_bin_mask.
  rewrite (count_map _ _ _ Hlen).
  rewrite (select_map _ (flat P) (flat Y)), (select_map_self _ _ _ Hlen).
  fold (entries P Y). cbn [List.filter].
  change (List.filter (fun e : R * R => Metrics.in_bin (fst b) (snd b) (fst e)) (entries P Y))
    with (bin_entries (entries P Y) b).
  destruct (0 <? length (bin_entries (entries P Y) b))%nat eqn:Hc.
  - cbn [mbind result_bind map np_sum foldr]. unfold bin_gap, mean.
    rewrite length_map. f_equal. fold (np_sum (map snd (bin_entries (entries P Y) b))). 
    unfold np_sum. lra.
  - cbn [map np_sum foldr]. f_equal. unfold np_sum; cbn. lra.
Qed.

Lemma ece_loop_gap (bs : list (R * R)) (acc : R) :
  for_each (Metrics.ece_step P (Arr2 Y)) bs acc =
  Ok (acc + np_sum (map bin_gap
                      (List.filter (fun es => (0 <? length es)%nat)
                         (map (bin_entries (entries P Y)) bs)))).
Proof.
  revert acc. induction bs as [|b bs IH]; intros acc; cbn [for_each map List.filter].
  - unfold np_sum; cbn. f_equal; lra.
  - rewrite ece_step_gap. cbn [mbind result_bind]. rewrite IH. f_equal.
    cbn [List.filter].
    destruct (0 <? length (bin_entries (entries P Y) b))%nat;
      cbn [map]; unfold np_sum; cbn [foldr]; lra.
Qed.

Lemma calculate_ece_gap (n_bins : nat) :
  Metrics._calculate_ece P (Arr2 Y) n_bins =
  if (shape0 P =? 0)%nat then Raise ZeroDivisionError
  else Ok (gap_sum P Y n_bins / INR (shape0 P)).
Proof.
  unfold Metrics._calculate_ece. rewrite ece_loop_gap. cbn [mbind result_bind].
  destruct (shape0 P =? 0)%nat; [reflexivity|].
  unfold gap_sum. f_equal. lra.
Qed.
End EceRefinement.


Lemma np_sum_cons (x : R) (l : list R) : np_sum (x :: l) = x + np_sum l.
Proof. reflexivity. Qed.

Lemma bin_gap_abs (es : list (R * R)) :
  bin_gap es = match es with
               | [] => 0
               | _ => Rabs (np_sum (map snd es) - np_sum (map fst es))
               end.
Proof.
  unfold bin_gap. destruct es as [|e es]; [cbn; lra|].
  set (n := INR (length (e :: es))).
  assert (Hn : 0 < n) by (apply lt_0_INR; cbn; lia).
  replace (np_sum (map snd (e :: es)) / n - np_sum (map fst (e :: es)) / n)
    with ((np_sum (map snd (e :: es)) - np_sum (map fst (e :: es))) * / n)
    by (field; lra).
  rewrite Rabs_mult, (Rabs_pos_eq (/ n)) by (left; apply Rinv_0_lt_compat; lra).
  field. lra.
Qed.

Lemma bin_gap_nonneg (es : list (R * R)) : 0 <= bin_gap es.
Proof. rewrite bin_gap_abs. destruct es; [lra|apply Rabs_pos]. Qed.

Lemma adjacent_cons (a b : R) (l : list R) :
  adjacent (a :: b :: l) = (a, b) :: adjacent (b :: l).
Proof. reflexivity. Qed.


Lemma gap_filter_nonneg (L : list (list (R * R))) :
  0 <= np_sum (map bin_gap (List.filter (fun es => (0 <? length es)%nat) L)).
Proof.
  induction L as [|es L IH]; cbn [List.filter map]; [unfold np_sum; cbn; lra|].
  pose proof (bin_gap_nonneg es).
  destruct (0 <? length es)%nat; cbn [map]; rewrite ?np_sum_cons; lra.
Qed.

Lemma boundaries_monotone (n i : nat) :
  0 + INR i * ((1 - 0) / INR n) <= 0 + INR (S i) * ((1 - 0) / INR n).
Proof.
  rewrite S_INR.
  assert (0 <= (1 - 0) / INR n).
  { destruct n as [|n].
    - cbn [INR]. unfold Rdiv. rewrite Rinv_0. lra.
    - apply Rlt_le, Rdiv_lt_0_compat; [lra|apply lt_0_INR; lia]. }
  nra.
Qed.

Lemma gap_sum_nonneg (P Y : array2 R) (n_bins : nat) : 0 <= gap_sum P Y n_bins.
Proof. apply gap_filter_nonneg. Qed.

(** *** Normalisation *)

Lemma calculate_ece_rows (P Y : array2 R) (n_bins : nat) :
  wf_array2 P -> wf_array2 Y -> same_shape P Y = true -> (0 < shape0 P)%nat ->
  Metrics._calculate_ece P (Arr2 Y) n_bins =
  Ok (gap_sum P Y n_bins / INR (shape0 P)).
Proof.
  intros HP HY Hs HN. rewrite (calculate_ece_gap P Y HP HY Hs).
  destruct (shape0 P =? 0)%nat eqn:E; [|reflexivity].
  apply Nat.eqb_eq in E. lia.
Qed.




Lemma nth_map_seq (g : nat -> R) :
  forall n s j, (j < n)%nat -> nth j (map g (seq s n)) 0 = g (s + j)%nat.
Proof.
  induction n as [|n IH]; intros s j Hj; [lia|].
  destruct j as [|j]; cbn [seq map nth].
  - rewrite Nat.add_0_r. reflexivity.
  - rewrite IH by lia. f_equal. lia.
Qed.






(** *** Bin boundaries *)

Lemma adjacent_map_seq_in (f : nat -> R) (b : R * R) :
  forall k s,
  In b (adjacent (map f (seq s (S k)))) ->
  exists i, (s <= i < s + k)%nat /\ b = (f i, f (S i)).
Proof.
  induction k as [|k IH]; intros s Hin.
  - destruct Hin.
  - change (seq s (S (S k))) with (s :: S s :: seq (S (S s)) k) in Hin.
    cbn [map] in Hin. rewrite adjacent_cons in Hin.
    destruct Hin as [<- | Hin].
    + exists s. split; [lia | reflexivity].
    + destruct (IH (S s) Hin) as (i & Hi & ->).
      exists i. split; [lia | reflexivity].
Qed.

Lemma bins_in (n_bins : nat) (b : R * R) :
  In b (Metrics.bins n_bins) ->
  exists i, (i < n_bins)%nat /\
    b = (0 + INR i * ((1 - 0) / INR n_bins),
         0 + INR (S i) * ((1 - 0) / INR n_bins)).
Proof.
  unfold Metrics.bins, np_linspace.
  replace (n_bins + 1)%nat with (S n_bins) by lia.
  replace (S n_bins - 1)%nat with n_bins by lia.
  intros Hin.
  destruct (adjacent_map_seq_in
              (fun i => 0 + INR i * ((1 - 0) / INR n_bins)) b n_bins 0%nat Hin)
    as (i & Hi & ->).
  exists i. split; [lia | reflexivity].
Qed.

(** The value 1.0 lies in no bin, whatever the number of bins. *)
Lemma one_in_no_bin (n_bins : nat) (b : R * R) :
  In b (Metrics.bins n_bins) -> Metrics.in_bin (fst b) (snd b) 1 = false.
Proof.
  intros Hin. destruct (bins_in n_bins b Hin) as (i & Hi & ->).
  unfold Metrics.in_bin. cbn [fst snd].
  apply andb_false_iff. right. apply bool_decide_eq_false_2.
  assert (Hn : 0 < INR n_bins) by (apply lt_0_INR; lia).
  assert (Hle : INR (S i) <= INR n_bins) by (apply le_INR; lia).
  assert (Hq : INR (S i) * ((1 - 0) / INR n_bins) <= 1).
  { replace (INR (S i) * ((1 - 0) / INR n_bins)) with (INR (S i) / INR n_bins)
      by (field; lra).
    apply (Rmult_le_reg_r (INR n_bins)); [exact Hn|].
    replace (INR (S i) / INR n_bins * INR n_bins) with (INR (S i)) by (field; lra).
    lra. }
  lra.
Qed.

(** C2, violated by the code: every bin is closed below and open above,
    the last one included, so an entry equal to 1.0 is counted in no bin.
    On the row [1.0, 0.0] the reliability bins hold one entry of the two
    that were fed in. *)
Theorem reliability_drops_probability_one :
  let P := Array2 2 [[1; 0]] in
  let Y := Array2 2 [[1; 0]] in
  exists r,
    Metrics._calculate_reliability P (Arr2 Y) 10 = Ok r /\
    Metrics.bin_sizes r = [1%nat] /\
    length (flat P) = 2%nat /\
    sum_list (Metrics.bin_sizes r) <> length (flat P).
Proof.
  cbv zeta. run_metric. eexists. split; [reflexivity|].
  cbn. repeat split; lia.
Qed.

(** *** Range of the expected calibration error *)

Lemma evaluate_calibration_ece (brier : list R -> list R -> result R)
    (P : array2 R) (y_true : ndarray) (method : string)
    (m : calibration_metrics) :
  evaluate_calibration brier P y_true method = Ok m ->
  Metrics._calculate_ece P y_true 15 = Ok (ece m).
Proof.
  unfold evaluate_calibration.
  destruct (for_each _ _ _) as [bs|e]; cbn [mbind result_bind]; [|discriminate].
  destruct (Metrics._calculate_ece P y_true 15) as [v|e];
    cbn [mbind result_bind]; [|discriminate].
  destruct (Metrics._calculate_reliability P y_true 10) as [r|e];
    cbn [mbind result_bind]; [|discriminate].
  intros H. injection H as <-. reflexivity.
Qed.

Ltac solve_rows :=
  repeat first
    [ apply List.Forall_nil
    | apply List.Forall_cons
    | split
    | reflexivity
    | (left; lra)
    | (right; lra)
    | lra
    | (unfold np_sum; cbn [foldr]; lra) ].

Lemma ece_zero_half_half :
  Metrics._calculate_ece (Array2 3 [[0; 1/2; 1/2]]) (Arr2 (Array2 3 [[1; 0; 0]])) 15
  = Ok 2.
Proof. run_metric. f_equal. eval_Rabs. lra. Qed.

Lemma reliability_zero_half_half :
  exists r,
    Metrics._calculate_reliability (Array2 3 [[0; 1/2; 1/2]])
      (Arr2 (Array2 3 [[1; 0; 0]])) 10 = Ok r.
Proof. run_metric. eexists. reflexivity. Qed.

(** C3, violated by the code: the ECE is no weighted average, because the
    gaps of the per-entry bins are divided by the number of rows.  The row
    [0, 0.5, 0.5] with the first class true is a valid input: its entry 0
    is alone in the first bin with accuracy 1 (gap 1), its two entries 0.5
    share a bin with accuracy 0 (gap 2 * 0.5), and the sum 2 is divided by
    N = 1.  Every evaluation that returns reports the ECE 2, and the
    evaluation returns whenever the Brier score does. *)
Theorem evaluate_ece_is_two_on_valid_input :
  let P := Array2 3 [[0; 1/2; 1/2]] in
  let Y := Array2 3 [[1; 0; 0]] in
  probability_matrix P /\ one_hot Y /\ same_shape P Y = true /\
  Metrics._calculate_ece P (Arr2 Y) 15 = Ok 2 /\
  (forall (brier : list R -> list R -> result R) (method : string)
          (m : calibration_metrics),
     evaluate_calibration brier P (Arr2 Y) method = Ok m ->
     ece m = 2 /\ ~ (0 <= ece m <= 1)) /\
  (forall (brier : list R -> list R -> result R) (method : string),
     (forall yt yp, exists v, brier yt yp = Ok v) ->
     exists m, evaluate_calibration brier P (Arr2 Y) method = Ok m).
Proof.
  cbv zeta.
  split; [split; [repeat constructor | solve_rows]|].
  split; [split; [repeat constructor | solve_rows]|].
  split; [reflexivity|].
  split; [exact ece_zero_half_half|].
  split.
  - intros brier method m Hm. apply evaluate_calibration_ece in Hm.
    rewrite ece_zero_half_half in Hm. injection Hm as <-.
    split; [reflexivity | lra].
  - intros brier method Hb. unfold evaluate_calibration.
    rewrite ece_zero_half_half.
    destruct reliability_zero_half_half as [r ->].
    cbn [shape1 ncols seq for_each brier_step column Nat.ltb Nat.leb mbind
         result_bind rows map nth].
    repeat match goal with
    | |- context [brier ?a ?b] =>
        destruct (Hb a b) as [? ->]; cbn [mbind result_bind for_each]
    end.
    eexists. reflexivity.
Qed.

(** ** Labels given as class indices *)

Lemma evaluate_calibration_arr1 (brier : list R -> list R -> result R)
    (P : array2 R) (v : list R) (method : string) :
  (0 < shape1 P)%nat ->
  evaluate_calibration brier P (Arr1 v) method = Raise IndexError.
Proof.
  intros Hc. unfold evaluate_calibration.
  destruct (shape1 P) as [|c]; [lia|]. reflexivity.
Qed.

Section OrchestratorFailure.
Variables keras_model images history_entry isotonic_model : Type.
Variable load_keras_model : string -> result keras_model.
Variable brier_score_loss : list R -> list R -> result R.
Variable minimize :
  (R -> result (option R)) -> R -> list (R * R) -> result (list R).
Variable lr_fit : array2 R -> list nat -> result fitted_lr.
Variable isotonic_fit : list R -> list R -> result isotonic_model.
Variable plot : array2 R -> ndarray -> string -> result unit.
Variable iterencode : calibration_data history_entry -> list string * option exn.

(** After [prepare_calibration_data] the labels are one-dimensional, and
    the first evaluation raises: no run whose model predicts at least one
    class gets further. *)
Lemma calibrate_model_index_error
    (predict : keras_model -> images -> result (array2 R))
    (X_val : images) (Y : array2 R) (env : io_env)
    (self : calibrator keras_model history_entry) (fs : file_system)
    (m : keras_model) (P : array2 R) :
  model self = Some m -> predict m X_val = Ok P ->
  (0 < ncols P)%nat -> (0 < ncols Y)%nat ->
  calibrate_model keras_model images history_entry isotonic_model
    load_keras_model predict brier_score_loss minimize lr_fit isotonic_fit
    plot iterencode X_val (Arr2 Y) env (self, fs)
  = (Raise IndexError, (self, fs)).
Proof.
  intros Hm Hp HP HY.
  unfold calibrate_model, st_bind, ensure_model, get_model, lift,
    prepare_calibration_data, np_argmax_axis1.
  cbn [fst snd]. rewrite Hm. cbn [fst snd]. rewrite Hm. cbn [fst snd].
  rewrite Hp. cbn [mbind result_bind].
  destruct (ncols Y =? 0)%nat eqn:E; [apply Nat.eqb_eq in E; lia|].
  cbn [mbind result_bind fst snd].
  rewrite evaluate_calibration_arr1 by exact HP. reflexivity.
Qed.

(** C4, violated by the code: class-index labels are never converted to
    one-hot.  On the scenario of the specification (two samples, labels
    [0, 1]) [evaluate_calibration] raises IndexError at [y_true[:, 0]], and
    so does every run of [calibrate_model] on that prediction matrix with
    the one-hot labels [[1,0],[0,1]], which it reduces to [0, 1] first. *)
Theorem evaluate_calibration_class_indices_raise :
  let P := Array2 2 [[9/10; 1/10]; [2/10; 8/10]] in
  evaluate_calibration brier_score_loss P (Arr1 [0; 1]) "original"
  = Raise IndexError /\
  forall (m : keras_model) (X_val : images) (env : io_env)
         (path : string) (params : gmap string R)
         (history : list history_entry) (fs : file_system),
    fst (calibrate_model keras_model images history_entry isotonic_model
           load_keras_model (fun _ _ => Ok P) brier_score_loss minimize lr_fit
           isotonic_fit plot iterencode X_val
           (Arr2 (Array2 2 [[1; 0]; [0; 1]])) env
           (Calibrator path (Some m) params history, fs))
    = Raise IndexError.
Proof.
  cbv zeta. split; [reflexivity|].
  intros m X_val env path params history fs.
  rewrite (calibrate_model_index_error (fun _ _ => Ok _) X_val _ env _ fs m
             (Array2 2 [[9/10; 1/10]; [2/10; 8/10]]));
    [reflexivity | reflexivity | reflexivity | cbn; lia | cbn; lia].
Qed.
End OrchestratorFailure.

(** ** Platt scaling *)

Lemma foldl_Rmax_spec (t : list R) :
  forall x,
  (foldl Rmax x t = x \/ In (foldl Rmax x t) t) /\
  x <= foldl Rmax x t /\
  Forall (fun y => y <= foldl Rmax x t) t.
Proof.
  induction t as [|a t IH]; intros x; cbn [foldl].
  - split; [left; reflexivity|]. split; [lra | constructor].
  - destruct (IH (Rmax x a)) as (Hin & Hle & Hall).
    pose proof (Rmax_l x a) as Hl. pose proof (Rmax_r x a) as Hr.
    split; [|split].
    + destruct Hin as [Heq | Hin]; [|right; right; exact Hin].
      rewrite Heq. unfold Rmax. destruct (Rle_dec x a).
      * right. left. reflexivity.
      * left. reflexivity.
    + lra.
    + constructor; [lra | exact Hall].
Qed.

(** [row_max] of a non-empty row is its largest entry. *)
Lemma row_max_spec (r : list R) :
  r <> [] ->
  In (Temperature.row_max r) r /\ Forall (fun p => p <= Temperature.row_max r) r.
Proof.
  destruct r as [|x t]; [congruence|]. intros _. cbn [Temperature.row_max].
  destruct (foldl_Rmax_spec t x) as (Hin & Hle & Hall). split.
  - destruct Hin as [-> | Hin]; [left; reflexivity | right; exact Hin].
  - constructor; assumption.
Qed.

Lemma argmax_from_spec (l : list R) :
  forall (pre : list R) (best : R) (best_i : nat),
  (best_i < length pre)%nat ->
  nth best_i (pre ++ l) 0 = best ->
  Forall (fun x => x <= best) pre ->
  (argmax_from best best_i (length pre) l < length (pre ++ l))%nat /\
  Forall (fun x => x <= nth (argmax_from best best_i (length pre) l) (pre ++ l) 0)
    (pre ++ l).
Proof.
  induction l as [|x t IH]; intros pre best best_i Hi Hnth Hpre.
  - cbn [argmax_from]. rewrite app_nil_r in *. split; [exact Hi|].
    rewrite Hnth. exact Hpre.
  - cbn [argmax_from].
    replace (pre ++ x :: t) with ((pre ++ [x]) ++ t) in *
      by (rewrite <- app_assoc; reflexivity).
    replace (S (length pre)) with (length (pre ++ [x]))
      by (rewrite length_app; cbn; lia).
    case_bool_decide as Hlt.
    + apply IH.
      * rewrite length_app. cbn. lia.
      * rewrite <- app_assoc. cbn [app]. apply nth_middle.
      * apply Forall_app. split.
        -- eapply List.Forall_impl; [|exact Hpre]. cbn. intros; lra.
        -- constructor; [lra | constructor].
    + apply IH.
      * rewrite length_app. cbn. lia.
      * exact Hnth.
      * apply Forall_app. split; [exact Hpre|].
        constructor; [lra | constructor].
Qed.

(** [argmax] of a non-empty row is a position of its largest entry. *)
Lemma argmax_spec (r : list R) :
  r <> [] ->
  (argmax r < length r)%nat /\ Forall (fun x => x <= nth (argmax r) r 0) r.
Proof.
  destruct r as [|x t]; [congruence|]. intros _. cbn [argmax].
  apply (argmax_from_spec t [x] x 0%nat).
  - cbn. lia.
  - reflexivity.
  - constructor; [lra | constructor].
Qed.

Lemma one_hot_row_has_one (y : list R) : one_hot_row y -> In 1 y.
Proof.
  intros [H01 Hsum]. induction H01 as [|a y Ha H01 IH].
  - unfold np_sum in Hsum. cbn in Hsum. lra.
  - rewrite np_sum_cons in Hsum. destruct Ha as [-> | ->].
    + right. apply IH. lra.
    + left. reflexivity.
Qed.

(** On a one-hot row [argmax] is the index of the true class. *)
Lemma argmax_one_hot (y : list R) : one_hot_row y -> nth (argmax y) y 0 = 1.
Proof.
  intros Hy. pose proof (one_hot_row_has_one y Hy) as H1.
  assert (Hne : y <> []) by (intros ->; destruct H1).
  destruct (argmax_spec y Hne) as [Hlt Hmax].
  destruct Hy as [H01 _].
  rewrite List.Forall_forall in Hmax, H01.
  specialize (Hmax 1 H1).
  destruct (H01 (nth (argmax y) y 0) (nth_In y 0 Hlt)) as [H | H]; lra.
Qed.

(** C5, as amended: for a probability matrix and aligned one-hot labels the
    Platt scaler fits its logistic regression with the per-sample maximum
    predicted probability as the sole feature and, as the target, the true
    class index of each sample (the position of the 1 in its label row),
    and returns [coef_[0][0]] and [intercept_[0]] of the fit. *)
Theorem platt_scaling_fits_true_class
    (lr_fit : array2 R -> list nat -> result fitted_lr) (P Y : array2 R) :
  wf_array2 P -> (0 < ncols P)%nat -> one_hot Y -> (0 < ncols Y)%nat ->
  platt_scaling lr_fit P (Arr2 Y) =
    (lr ← lr_fit (Array2 1 (map (fun r => [Temperature.row_max r]) (rows P)))
                 (map argmax (rows Y));
     row ← index0 (coef_ lr);
     platt_a ← index0 row;
     platt_b ← index0 (intercept_ lr);
     Ok (platt_a, platt_b)) /\
  Forall (fun r => In (Temperature.row_max r) r /\
                   Forall (fun p => p <= Temperature.row_max r) r) (rows P) /\
  Forall (fun y => nth (argmax y) y 0 = 1) (rows Y).
Proof.
  intros HwP HcP [HwY HY] HcY. split; [|split].
  - unfold platt_scaling, platt_features, platt_targets, np_argmax_axis1,
      Temperature.np_max_axis1.
    destruct (ncols P =? 0)%nat eqn:EP; [apply Nat.eqb_eq in EP; lia|].
    destruct (ncols Y =? 0)%nat eqn:EY; [apply Nat.eqb_eq in EY; lia|].
    cbn [mbind result_bind]. rewrite map_map. reflexivity.
  - eapply List.Forall_impl; [|exact HwP]. cbn. intros r Hr.
    apply row_max_spec. intros ->. cbn in Hr. lia.
  - eapply List.Forall_impl; [|exact HY]. intros y Hy.
    apply argmax_one_hot. exact Hy.
Qed.

Lemma platt_scaling_fits_true_class_witness :
  platt_scaling (fun _ t => Ok (FittedLR [[INR (sum_list t)]] [0]))
    (Array2 2 [[9/10; 1/10]]) (Arr2 (Array2 2 [[0; 1]])) =
    (lr ← (fun _ t => Ok (FittedLR [[INR (sum_list t)]] [0]))
            (Array2 1 (map (fun r => [Temperature.row_max r]) [[9/10; 1/10]]))
            (map argmax [[0; 1]]);
     row ← index0 (coef_ lr);
     platt_a ← index0 row;
     platt_b ← index0 (intercept_ lr);
     Ok (platt_a, platt_b)) /\
  Forall (fun r => In (Temperature.row_max r) r /\
                   Forall (fun p => p <= Temperature.row_max r) r)
    [[9/10; 1/10]] /\
  Forall (fun y => nth (argmax y) y 0 = 1) [[0; 1]].
Proof.
  apply (platt_scaling_fits_true_class
           (fun _ t => Ok (FittedLR [[INR (sum_list t)]] [0]))
           (Array2 2 [[9/10; 1/10]]) (Array2 2 [[0; 1]])).
  - repeat constructor.
  - cbn. lia.
  - split; [repeat constructor | solve_rows].
  - cbn. lia.
Defined.

Ltac run_argmax :=
  repeat (progress (cbn [argmax argmax_from map zip_with rows]; decide_cmp)).

(** C5 as stated fails: on the misclassified sample [0.9, 0.1] with true
    class 1, the target handed to the fit is the class index 1, not the
    correctness indicator 0, and a fit that reports the sum of its targets
    tells them apart. *)
Lemma platt_target_is_not_correctness :
  let lr_fit := fun (_ : array2 R) (t : list nat) =>
                  Ok (FittedLR [[INR (sum_list t)]] [0]) in
  let P := Array2 2 [[9/10; 1/10]] in
  let Y := Array2 2 [[0; 1]] in
  probability_matrix P /\ one_hot Y /\
  platt_targets (Arr2 Y) = Ok [1%nat] /\
  prediction_correct P Y = [0%nat] /\
  platt_scaling lr_fit P (Arr2 Y) = Ok (1, 0) /\
  platt_scaling_spec lr_fit P Y = Ok (0, 0) /\
  platt_scaling lr_fit P (Arr2 Y) <> platt_scaling_spec lr_fit P Y.
Proof.
  cbv zeta.
  assert (Ht : platt_targets (Arr2 (Array2 2 [[0; 1]])) = Ok [1%nat]).
  { unfold platt_targets, np_argmax_axis1. cbn [ncols Nat.eqb]. run_argmax.
    reflexivity. }
  assert (Hc : prediction_correct (Array2 2 [[9/10; 1/10]]) (Array2 2 [[0; 1]])
               = [0%nat]).
  { unfold prediction_correct. run_argmax. reflexivity. }
  assert (Hcode : platt_scaling (fun _ t => Ok (FittedLR [[INR (sum_list t)]] [0]))
                    (Array2 2 [[9/10; 1/10]]) (Arr2 (Array2 2 [[0; 1]]))
                  = Ok (1, 0)).
  { unfold platt_scaling. rewrite Ht. cbn. reflexivity. }
  assert (Hspec : platt_scaling_spec (fun _ t => Ok (FittedLR [[INR (sum_list t)]] [0]))
                    (Array2 2 [[9/10; 1/10]]) (Array2 2 [[0; 1]])
                  = Ok (0, 0)).
  { unfold platt_scaling_spec. rewrite Hc. cbn. reflexivity. }
  split; [split; [repeat constructor | solve_rows]|].
  split; [split; [repeat constructor | solve_rows]|].
  split; [exact Ht|]. split; [exact Hc|]. split; [exact Hcode|].
  split; [exact Hspec|].
  rewrite Hcode, Hspec. intros H. injection H as H. lra.
Qed.

(** ** The calibration history *)

Section History.
Variables keras_model images history_entry isotonic_model : Type.
Variable load_keras_model : string -> result keras_model.
Variable predict : keras_model -> images -> result (array2 R).
Variable brier_score_loss : list R -> list R -> result R.
Variable minimize :
  (R -> result (option R)) -> R -> list (R * R) -> result (list R).
Variable lr_fit : array2 R -> list nat -> result fitted_lr.
Variable isotonic_fit : list R -> list R -> result isotonic_model.
Variable plot : array2 R -> ndarray -> string -> result unit.
Variable iterencode : calibration_data history_entry -> list string * option exn.

Local Abbreviation Mh := (M keras_model history_entry).

Lemma keeps_history_ret {A} (a : A) :
  keeps_history (st_ret keras_model history_entry a).
Proof. intros w. reflexivity. Qed.

Lemma keeps_history_lift {A} (r : result A) :
  keeps_history (lift keras_model history_entry r).
Proof. intros w. reflexivity. Qed.

Lemma keeps_history_bind {A B} (c : Mh A) (k : A -> Mh B) :
  keeps_history c -> (forall a, keeps_history (k a)) ->
  keeps_history (st_bind keras_model history_entry c k).
Proof.
  intros Hc Hk w. unfold st_bind. specialize (Hc w).
  destruct (c w) as [[a|e] w']; cbn [fst snd] in *.
  - rewrite (Hk a w'). exact Hc.
  - exact Hc.
Qed.

Lemma keeps_history_assign (k : string) (v : R) :
  keeps_history (assign keras_model history_entry k v).
Proof. intros w. reflexivity. Qed.

Lemma load_model_history (self : calibrator keras_model history_entry) :
  calibration_history (snd (load_model load_keras_model self))
  = calibration_history self.
Proof. unfold load_model. destruct (load_keras_model _); reflexivity. Qed.

Lemma keeps_history_ensure_model :
  keeps_history (ensure_model keras_model history_entry load_keras_model).
Proof.
  intros w. unfold ensure_model. destruct (model (fst w)); [reflexivity|].
  cbn [fst snd]. apply load_model_history.
Qed.

Lemma keeps_history_get_model :
  keeps_history (get_model keras_model history_entry).
Proof. intros w. unfold get_model. destruct (model (fst w)); reflexivity. Qed.

Lemma keeps_history_mkdir (env : io_env) :
  keeps_history (mkdir keras_model history_entry env).
Proof. intros w. reflexivity. Qed.

Lemma keeps_history_save (path : string) (env : io_env) :
  keeps_history (save keras_model history_entry iterencode path env).
Proof. intros w. reflexivity. Qed.

Lemma keeps_history_get_self :
  keeps_history (get_self keras_model history_entry).
Proof. intros w. reflexivity. Qed.

Lemma keeps_history_calibrate_model (X_val : images) (y_val : ndarray)
    (env : io_env) :
  keeps_history
    (calibrate_model keras_model images history_entry isotonic_model
       load_keras_model predict brier_score_loss minimize lr_fit isotonic_fit
       plot iterencode X_val y_val env).
Proof.
  unfold calibrate_model.
  repeat first
    [ apply keeps_history_bind; [|intros ?]
    | apply keeps_history_ensure_model
    | apply keeps_history_get_model
    | apply keeps_history_lift
    | apply keeps_history_assign
    | apply keeps_history_mkdir
    | apply keeps_history_save
    | apply keeps_history_get_self
    | apply keeps_history_ret ].
Qed.

(** C6, as amended: no run of the orchestrator's calibrate operation
    appends to CalibrationHistory.  The history is created empty, and the
    operations of the core ([load_model], [save_calibration_params] through
    [save], [calibrate_model]) leave it as they found it, whether they
    return or raise: entries are never added, modified or removed. *)
Theorem calibration_history_is_never_touched :
  (forall path, calibration_history (init keras_model history_entry path) = []) /\
  (forall self : calibrator keras_model history_entry,
     calibration_history (snd (load_model load_keras_model self))
     = calibration_history self) /\
  (forall path env,
     keeps_history (save keras_model history_entry iterencode path env)) /\
  (forall X_val y_val env self fs,
     calibration_history
       (fst (snd (calibrate_model keras_model images history_entry
                    isotonic_model load_keras_model predict brier_score_loss
                    minimize lr_fit isotonic_fit plot iterencode
                    X_val y_val env (self, fs))))
     = calibration_history self).
Proof.
  split; [reflexivity|]. split; [apply load_model_history|].
  split; [apply keeps_history_save|].
  intros X_val y_val env self fs.
  apply (keeps_history_calibrate_model X_val y_val env (self, fs)).
Qed.
End History.

(** C6 as stated fails: a run of [calibrate_model] from a fresh calibrator
    ends with the history as empty as it began, whatever the libraries
    answer. *)
Lemma calibrate_model_appends_nothing :
  let run :=
    calibrate_model unit unit unit unit
      (fun _ => Ok ()) (fun _ _ => Ok (Array2 2 [[9/10; 1/10]]))
      (fun _ _ => Ok 0) (fun _ x0 _ => Ok [x0])
      (fun _ _ => Ok (FittedLR [[1]] [0])) (fun _ _ => Ok ())
      (fun _ _ _ => Ok ()) (fun _ => ([], None))
      () (Arr2 (Array2 2 [[1; 0]])) (IoEnv true true None)
      (init unit unit "models/mobilenet_v2_final.h5", ∅) in
  calibration_history (fst (snd run)) = [] /\
  length (calibration_history (fst (snd run))) <>
  S (length (calibration_history
               (init unit unit "models/mobilenet_v2_final.h5"))).
Proof.
  cbv zeta.
  rewrite (keeps_history_calibrate_model unit unit unit unit).
  cbn [fst init calibration_history length]. split; [reflexivity | lia].
Qed.

(** ** Persistence *)

Section Persistence.
Variables keras_model history_entry : Type.
Variable iterencode : calibration_data history_entry -> list string * option exn.

(** The writes stop at the first one the device refuses. *)
Lemma write_chunks_exact (chunks : list string) :
  forall (budget : option nat) (content : string),
    write_chunks chunks budget content =
    (if (writes_done budget chunks <? length chunks)%nat then Raise OSError
     else Ok (),
     written content (take (writes_done budget chunks) chunks)).
Proof.
  induction chunks as [|c rest IH]; intros budget content.
  - destruct budget as [b|]; cbn [write_chunks writes_done length].
    + rewrite Nat.min_0_r. reflexivity.
    + reflexivity.
  - cbn [write_chunks]. destruct budget as [[|b]|].
    + reflexivity.
    + rewrite (IH (Some b) (content +:+ c)).
      cbn [writes_done length]. rewrite <- Nat.succ_min_distr. reflexivity.
    + rewrite (IH None (content +:+ c)). cbn [writes_done length].
      rewrite !Nat.ltb_irrefl. cbn [take written foldl]. reflexivity.
Qed.

(** C8, as amended: a failure of the write is propagated to the caller, but
    the write is not atomic.  If the parameters cannot be read or the file
    cannot be opened, nothing is touched.  Once the file is opened, which
    truncates it, the destination holds exactly the chunks written so far,
    whatever it held before: the complete document when the call returns, a
    prefix of it, in place of the previous document, when a write fails
    (OSError) or the encoder raises after the chunks it yielded. *)
Theorem save_calibration_params_outcome
    (self : calibrator keras_model history_entry) (save_path : string)
    (env : io_env) (fs : file_system) :
  let out := save_calibration_params iterencode self save_path env fs in
  match build_calibration_data self with
  | Raise e => out = (Raise e, fs)
  | Ok data =>
      let chunks := fst (iterencode data) in
      let k := writes_done (write_budget env) chunks in
      if open_ok env then
        snd out = <[save_path := written "" (take k chunks)]> fs /\
        fst out = (if (k <? length chunks)%nat then Raise OSError
                   else match snd (iterencode data) with
                        | Some e => Raise e
                        | None => Ok ()
                        end)
      else out = (Raise OSError, fs)
  end.
Proof.
  cbv zeta. unfold save_calibration_params.
  destruct (build_calibration_data self) as [data|e]; [|reflexivity].
  destruct (open_ok env); [|reflexivity].
  cbn [fst snd]. unfold json_dump. rewrite write_chunks_exact.
  destruct (writes_done (write_budget env) (fst (iterencode data))
            <? length (fst (iterencode data)))%nat.
  - split; reflexivity.
  - destruct (snd (iterencode data)); split; reflexivity.
Qed.
End Persistence.

(** C8 as stated fails: when the device fails after the first chunk, or the
    encoder raises after it, the destination holds that chunk alone:
    neither the previous document nor the complete new one. *)
Lemma save_calibration_params_leaves_partial_document :
  let self := init unit unit "models/mobilenet_v2_final.h5" in
  let path := "results/calibration_params.json"%string in
  let fs : file_system := {[ path := "previous document"%string ]} in
  let chunks := ["{"; "temperature: 1.0"; "}"]%string in
  let disk_full :=
    save_calibration_params (fun _ => (chunks, None)) self path
      (IoEnv true true (Some 1%nat)) fs in
  let encoder_raises :=
    save_calibration_params (fun _ => (["{"%string], Some TypeError)) self path
      (IoEnv true true None) fs in
  fst disk_full = Raise OSError /\
  snd disk_full !! path = Some "{"%string /\
  fst encoder_raises = Raise TypeError /\
  snd encoder_raises !! path = Some "{"%string /\
  fs !! path = Some "previous document"%string /\
  written "" chunks = "{temperature: 1.0}"%string.
Proof.
  cbv zeta.
  assert (Hb : build_calibration_data (init unit unit "models/mobilenet_v2_final.h5")
               = Ok (CalibrationData unit 1 1 0 [])).
  { unfold build_calibration_data, get_param, init. cbn [calibration_params].
    repeat (first [ rewrite lookup_insert_eq
                  | rewrite lookup_insert_ne by discriminate ];
            cbn [mbind result_bind]).
    reflexivity. }
  unfold save_calibration_params. rewrite Hb. cbn [open_ok write_budget].
  unfold json_dump. cbn [fst snd write_chunks].
  rewrite !lookup_insert_eq, lookup_singleton_eq.
  repeat split; reflexivity.
Qed.

(** ** Softmax and temperature scaling *)

Lemma floor_eps_pos : 0 < Temperature.floor_eps.
Proof. unfold Temperature.floor_eps. lra. Qed.

Lemma zip_with_map_r {A B C} (f : A -> B -> C) (g : A -> B) (l : list A) :
  zip_with f l (map g l) = map (fun a => f a (g a)) l.
Proof. induction l as [|a l IH]; cbn; [reflexivity | rewrite IH; reflexivity]. Qed.

Lemma softmax_rows (x : array2 R) :
  (0 < ncols x)%nat ->
  Temperature._softmax x = Ok (Array2 (ncols x) (map softmax_row (rows x))).
Proof.
  intros Hc. unfold Temperature._softmax, Temperature.np_max_axis1.
  destruct (ncols x =? 0)%nat eqn:E; [apply Nat.eqb_eq in E; lia|].
  cbn [mbind result_bind]. rewrite zip_with_map_r, map_map. reflexivity.
Qed.

Lemma np_sum_map_div (S : R) (l : list R) :
  np_sum (map (fun e => e / S) l) = np_sum l / S.
Proof.
  induction l as [|a l IH]; cbn [map].
  - unfold np_sum; cbn. lra.
  - rewrite !np_sum_cons, IH. lra.
Qed.

Lemma np_sum_positive (l : list R) :
  Forall (fun e => 0 < e) l ->
  0 <= np_sum l /\ (l <> [] -> 0 < np_sum l) /\ Forall (fun e => e <= np_sum l) l.
Proof.
  induction 1 as [|a l Ha Hl (IH0 & IH1 & IH2)].
  - split; [unfold np_sum; cbn; lra|]. split; [congruence | constructor].
  - rewrite np_sum_cons. split; [lra|]. split; [intros _; lra|].
    constructor; [lra|].
    eapply List.Forall_impl; [|exact IH2]. cbn. intros; lra.
Qed.

Lemma normalised_row (l : list R) :
  l <> [] -> Forall (fun e => 0 < e) l ->
  probability_row (map (fun e => e / np_sum l) l).
Proof.
  intros Hne Hpos.
  destruct (np_sum_positive l Hpos) as (_ & HS & Hle). specialize (HS Hne).
  split.
  - apply List.Forall_map. rewrite List.Forall_forall in *.
    intros e He. specialize (Hpos e He). specialize (Hle e He). split.
    + apply Rlt_le, Rdiv_lt_0_compat; lra.
    + apply (Rmult_le_reg_r (np_sum l)); [exact HS|].
      replace (e / np_sum l * np_sum l) with e by (field; lra). lra.
  - rewrite np_sum_map_div. field. lra.
Qed.

Lemma softmax_row_valid (r : list R) :
  r <> [] ->
  probability_row (softmax_row r) /\ length (softmax_row r) = length r.
Proof.
  intros Hne. unfold softmax_row. split.
  - apply normalised_row.
    + destruct r; [congruence | discriminate].
    + apply List.Forall_map, List.Forall_forall. intros v _. apply exp_pos.
  - rewrite !length_map. reflexivity.
Qed.

Lemma softmax_valid (x : array2 R) :
  wf_array2 x -> (0 < ncols x)%nat ->
  exists Q, Temperature._softmax x = Ok Q /\ probability_matrix Q /\
            same_shape x Q = true.
Proof.
  intros Hwf Hc. eexists. split; [apply softmax_rows; exact Hc|].
  split; [split|].
  - unfold wf_array2 in *. cbn [rows ncols]. apply List.Forall_map.
    eapply List.Forall_impl; [|exact Hwf]. cbn. intros r Hr.
    destruct (softmax_row_valid r) as [_ Hl]; [intros ->; cbn in Hr; lia|].
    congruence.
  - cbn [rows]. apply List.Forall_map.
    eapply List.Forall_impl; [|exact Hwf]. cbn. intros r Hr.
    apply softmax_row_valid. intros ->. cbn in Hr. lia.
  - unfold same_shape, shape0, shape1. cbn [rows ncols].
    rewrite length_map, !Nat.eqb_refl. reflexivity.
Qed.

Lemma scaled_logits_wf (P : array2 R) (T : R) :
  wf_array2 P -> wf_array2 (Temperature.scaled_logits P T).
Proof.
  unfold wf_array2, Temperature.scaled_logits. cbn [rows ncols]. intros H.
  apply List.Forall_map. eapply List.Forall_impl; [|exact H]. cbn.
  intros r Hr. rewrite length_map. exact Hr.
Qed.

(** *** Overflow *)

Ltac big_consts :=
  unfold Ieee.overflow_threshold, Ieee.max_float, Temperature.floor_eps in *;
  repeat match goal with
  | |- context [IZR (?a - ?b)%Z] =>
      let v := eval vm_compute in (a - b)%Z in change (a - b)%Z with v
  | H : context [IZR (?a - ?b)%Z] |- _ =>
      let v := eval vm_compute in (a - b)%Z in change (a - b)%Z with v in H
  end.

Lemma round_fin (r : R) :
  - Ieee.overflow_threshold < r < Ieee.overflow_threshold ->
  Ieee.round r = Ieee.Fin r.
Proof.
  intros [Hl Hu]. unfold Ieee.round.
  rewrite !bool_decide_eq_false_2 by lra. reflexivity.
Qed.

Lemma ln_lt_self (x : R) : 0 < x -> ln x < x.
Proof.
  intros Hx. rewrite <- (ln_exp x) at 2.
  apply ln_increasing; [exact Hx|]. assert (Hne : x <> 0) by lra.
  pose proof (exp_ineq1 x Hne). lra.
Qed.

Lemma ln_floor_bounds (p : R) :
  0 <= p <= Ieee.max_float -> -2048 < ln (p + Temperature.floor_eps) < 2048.
Proof.
  intros [H0 H1]. split.
  - assert (Hl : ln (/ 10 ^ 8) <= ln (p + Temperature.floor_eps)).
    { assert (He : / 10 ^ 8 <= p + Temperature.floor_eps)
        by (unfold Temperature.floor_eps; simpl; lra).
      destruct (Rle_lt_or_eq_dec _ _ He) as [Hlt | <-]; [|lra].
      left. apply ln_increasing; [|exact Hlt].
      apply Rinv_0_lt_compat, pow_lt. lra. }
    rewrite ln_Rinv in Hl by (apply pow_lt; lra).
    rewrite ln_pow in Hl by lra.
    pose proof (ln_lt_self 10). simpl INR in Hl. lra.
  - assert (Hu : ln (p + Temperature.floor_eps) < ln (2 ^ 1024)).
    { apply ln_increasing.
      - unfold Temperature.floor_eps. lra.
      - change 2 with (IZR 2). rewrite pow_IZR.
        let v := eval vm_compute in (2 ^ Z.of_nat 1024)%Z in
          change (2 ^ Z.of_nat 1024)%Z with v.
        big_consts. lra. }
    rewrite ln_pow in Hu by lra.
    pose proof (ln_lt_self 2).
    replace (INR 1024) with 1024 in Hu
      by (rewrite INR_IZR_INZ; reflexivity).
    lra.
Qed.

(** A scaled logit that does not overflow. *)
Lemma scaled_logit_finite (p T : R) :
  0 <= p <= Ieee.max_float -> 1e-300 <= T ->
  Ieee.fdiv (Ieee.flog (Ieee.fadd (Ieee.Fin p) (Ieee.Fin Temperature.floor_eps)))
    (Ieee.Fin T)
  = Ieee.Fin (ln (p + Temperature.floor_eps) / T) /\
  - (Ieee.overflow_threshold / 2) < ln (p + Temperature.floor_eps) / T
    < Ieee.overflow_threshold / 2.
Proof.
  intros Hp HT. pose proof (ln_floor_bounds p Hp) as Hln.
  assert (HT0 : 0 < T) by lra.
  assert (Hi : 0 < / T <= 1e300).
  { split; [apply Rinv_0_lt_compat; exact HT0|].
    apply (Rmult_le_reg_r T); [exact HT0|].
    replace (/ T * T) with 1 by (field; lra). lra. }
  assert (Hb : - (2048 * 1e300) < ln (p + Temperature.floor_eps) / T
               < 2048 * 1e300).
  { unfold Rdiv. set (a := ln _) in *. set (i := / T) in *.
    destruct Hi as [Hi0 Hi1]. destruct Hln as [Hl Hu]. split.
    - apply Rle_lt_trans with (- 2048 * i); [lra | nra].
    - apply Rlt_le_trans with (2048 * i); [nra | lra]. }
  assert (Hthr : 2048 * 1e300 < Ieee.overflow_threshold / 2)
    by (big_consts; lra).
  split; [|lra].
  cbn [Ieee.fadd]. rewrite round_fin.
  2: { destruct Hp as [Hp0 Hp1]. big_consts. lra. }
  cbn [Ieee.flog].
  rewrite (bool_decide_eq_true_2 (0 < p + Temperature.floor_eps))
    by (unfold Temperature.floor_eps; lra).
  cbn [Ieee.fdiv].
  rewrite (bool_decide_eq_true_2 (0 < T)) by exact HT0.
  rewrite orb_true_r. apply round_fin. lra.
Qed.

Lemma foldl_fmax_fin (t : list R) :
  forall x, foldl Ieee.fmax (Ieee.Fin x) (map Ieee.Fin t)
            = Ieee.Fin (foldl Rmax x t).
Proof.
  induction t as [|y t IH]; intros x; [reflexivity|].
  cbn [map foldl Ieee.fmax]. apply IH.
Qed.

Lemma row_max_fin (l : list R) :
  Ieee.row_max (map Ieee.Fin l) = Ieee.Fin (Temperature.row_max l).
Proof. destruct l as [|x t]; [reflexivity | apply foldl_fmax_fin]. Qed.

(** The exponential of a logit minus the row maximum. *)
Lemma shifted_exp_fin (v m : R) :
  - (Ieee.overflow_threshold / 2) < v < Ieee.overflow_threshold / 2 ->
  - (Ieee.overflow_threshold / 2) < m < Ieee.overflow_threshold / 2 ->
  v <= m ->
  Ieee.fexp (Ieee.fsub (Ieee.Fin v) (Ieee.Fin m)) = Ieee.Fin (exp (v - m)) /\
  0 < exp (v - m) <= 1.
Proof.
  intros Hv Hm Hle.
  assert (He : 0 < exp (v - m) <= 1).
  { split; [apply exp_pos|]. rewrite <- exp_0.
    destruct (Req_dec (v - m) 0) as [-> | Hne]; [lra|].
    left. apply exp_increasing. lra. }
  split; [|exact He].
  unfold Ieee.fsub. cbn [Ieee.fneg Ieee.fadd].
  rewrite round_fin by lra. cbn [Ieee.fexp].
  replace (v + - m) with (v - m) by lra.
  apply round_fin. assert (1 < Ieee.overflow_threshold) by (big_consts; lra).
  lra.
Qed.

Lemma fsum_fin (es : list R) :
  Forall (fun e => 0 < e <= 1) es ->
  INR (length es) < Ieee.overflow_threshold ->
  Ieee.fsum (map Ieee.Fin es) = Ieee.Fin (np_sum es) /\
  0 <= np_sum es <= INR (length es).
Proof.
  induction 1 as [|e es He Hes IH]; intros Hlen.
  - split; [reflexivity|]. unfold np_sum; cbn. lra.
  - cbn [length] in Hlen. rewrite S_INR in Hlen.
    destruct IH as [IH Hb]; [lra|].
    cbn [map length]. rewrite S_INR, np_sum_cons.
    split; [|lra].
    unfold Ieee.fsum in *. cbn [foldr]. rewrite IH. cbn [Ieee.fadd].
    apply round_fin. assert (0 < Ieee.overflow_threshold) by (big_consts; lra).
    lra.
Qed.

Lemma fdiv_fin (e S : R) :
  0 < e <= S ->
  Ieee.fdiv (Ieee.Fin e) (Ieee.Fin S) = Ieee.Fin (e / S).
Proof.
  intros [He HS]. cbn [Ieee.fdiv].
  rewrite (bool_decide_eq_true_2 (0 < S)) by lra. rewrite orb_true_r.
  apply round_fin.
  assert (0 < e / S <= 1).
  { split; [apply Rdiv_lt_0_compat; lra|].
    apply (Rmult_le_reg_r S); [lra|].
    replace (e / S * S) with e by (field; lra). lra. }
  assert (1 < Ieee.overflow_threshold) by (big_consts; lra). lra.
Qed.

(** The softmax of a row of logits that stay well inside the range. *)
Lemma softmax_row_fin (l : list R) :
  Forall (fun v => - (Ieee.overflow_threshold / 2) < v
                   < Ieee.overflow_threshold / 2) l ->
  INR (length l) < Ieee.overflow_threshold ->
  let exp_x := map (fun v => Ieee.fexp (Ieee.fsub v (Ieee.row_max (map Ieee.Fin l))))
                 (map Ieee.Fin l) in
  map (fun e => Ieee.fdiv e (Ieee.fsum exp_x)) exp_x
  = map Ieee.Fin (softmax_row l).
Proof.
  intros Hl Hlen. cbv zeta. rewrite row_max_fin.
  destruct l as [|x t] eqn:El; [reflexivity|]. rewrite <- El in *.
  assert (Hne : l <> []) by (rewrite El; discriminate).
  destruct (row_max_spec l Hne) as [Hin Hmax].
  set (m := Temperature.row_max l) in *.
  assert (Hm : - (Ieee.overflow_threshold / 2) < m < Ieee.overflow_threshold / 2).
  { rewrite List.Forall_forall in Hl. apply Hl. exact Hin. }
  assert (Hexp : map (fun v => Ieee.fexp (Ieee.fsub v (Ieee.Fin m))) (map Ieee.Fin l)
                 = map Ieee.Fin (map (fun v => exp (v - m)) l)).
  { rewrite !map_map. apply List.map_ext_in. intros v Hv.
    rewrite List.Forall_forall in Hl, Hmax.
    apply shifted_exp_fin; [apply Hl; exact Hv | exact Hm | apply Hmax; exact Hv]. }
  rewrite Hexp. unfold softmax_row. fold m.
  set (es := map (fun v => exp (v - m)) l).
  assert (Hes : Forall (fun e => 0 < e <= 1) es).
  { apply List.Forall_map. rewrite List.Forall_forall in *. intros v Hv.
    apply shifted_exp_fin; [apply Hl; exact Hv | exact Hm | apply Hmax; exact Hv]. }
  destruct (fsum_fin es Hes) as [HS Hb].
  { unfold es. rewrite length_map. exact Hlen. }
  rewrite HS, !map_map. apply List.map_ext_in. intros e He.
  apply fdiv_fin.
  destruct (np_sum_positive es) as (_ & _ & Hle).
  { eapply List.Forall_impl; [|exact Hes]. cbn. intros a Ha. lra. }
  rewrite List.Forall_forall in Hes, Hle. split; [apply Hes; exact He|].
  apply Hle. exact He.
Qed.

Lemma scaled_row_fin (r : list R) (T : R) :
  Forall (fun p => 0 <= p <= Ieee.max_float) r -> 1e-300 <= T ->
  map (fun p => Ieee.fdiv (Ieee.flog (Ieee.fadd p (Ieee.Fin Temperature.floor_eps)))
                  (Ieee.Fin T)) (map Ieee.Fin r)
  = map Ieee.Fin (map (fun p => ln (p + Temperature.floor_eps) / T) r) /\
  Forall (fun v => - (Ieee.overflow_threshold / 2) < v
                   < Ieee.overflow_threshold / 2)
    (map (fun p => ln (p + Temperature.floor_eps) / T) r).
Proof.
  intros Hr HT. split.
  - rewrite !map_map. apply List.map_ext_in. intros p Hp.
    rewrite List.Forall_forall in Hr.
    apply scaled_logit_finite; [apply Hr; exact Hp | exact HT].
  - apply List.Forall_map. eapply List.Forall_impl; [|exact Hr].
    cbn. intros p Hp. apply scaled_logit_finite; assumption.
Qed.

(** Where no scaled logit overflows, the binary64 values of temperature
    scaling are the finite numbers of the computation on the reals. *)
Lemma apply_temperature_scaling_finite (P : array2 R) (T : R) :
  wf_array2 P -> (0 < ncols P)%nat ->
  INR (ncols P) < Ieee.overflow_threshold ->
  Forall (Forall (fun p => 0 <= p <= Ieee.max_float)) (rows P) ->
  1e-300 <= T ->
  Ieee._apply_temperature_scaling (Ieee.of_reals P) (Ieee.Fin T)
  = Ok (Ieee.of_reals
          (Array2 (ncols P)
             (map softmax_row (rows (Temperature.scaled_logits P T))))).
Proof.
  intros Hwf Hc Hlen Hpos HT.
  unfold Ieee._apply_temperature_scaling, Ieee._softmax, Ieee.np_max_axis1,
    Ieee.scaled_logits, Ieee.of_reals, Temperature.scaled_logits.
  cbn [ncols rows].
  destruct (ncols P =? 0)%nat eqn:E; [apply Nat.eqb_eq in E; lia|].
  cbn [mbind result_bind]. rewrite zip_with_map_r, !map_map.
  f_equal. f_equal. apply List.map_ext_in. intros r Hr.
  rewrite List.Forall_forall in Hpos. unfold wf_array2 in Hwf.
  rewrite List.Forall_forall in Hwf.
  destruct (scaled_row_fin r T (Hpos r Hr) HT) as [Hrow Hb].
  rewrite Hrow. apply softmax_row_fin; [exact Hb|].
  rewrite length_map, (Hwf r Hr). exact Hlen.
Qed.

(** C10, as amended: for every N-by-C matrix (C > 0) of strictly positive
    binary64 entries and every temperature T >= 1e-300, which covers the
    range [0.1, 10] of the fit, no scaled logit overflows and the matrix
    that temperature scaling returns holds finite numbers only, has the
    shape of its input and is a valid probability matrix: every entry lies
    in [0, 1] and every row sums to 1. *)
Theorem apply_temperature_scaling_is_probability_matrix
    (P : array2 R) (temperature : R) :
  wf_array2 P -> (0 < ncols P)%nat ->
  INR (ncols P) < Ieee.overflow_threshold ->
  Forall (Forall (fun p => 0 < p <= Ieee.max_float)) (rows P) ->
  1e-300 <= temperature ->
  exists Q,
    Ieee._apply_temperature_scaling (Ieee.of_reals P) (Ieee.Fin temperature)
    = Ok (Ieee.of_reals Q) /\
    Temperature._apply_temperature_scaling P temperature = Ok Q /\
    probability_matrix Q /\ same_shape P Q = true.
Proof.
  intros Hwf Hc Hlen Hpos HT.
  destruct (softmax_valid (Temperature.scaled_logits P temperature))
    as (Q & HQ & Hv & Hs).
  { apply scaled_logits_wf. exact Hwf. }
  { exact Hc. }
  exists Q. split; [|split; [exact HQ|split; [exact Hv|]]].
  - rewrite (apply_temperature_scaling_finite P temperature); try assumption.
    + rewrite softmax_rows in HQ by exact Hc. injection HQ as <-. reflexivity.
    + eapply List.Forall_impl; [|exact Hpos]. cbn. intros r Hr.
      eapply List.Forall_impl; [|exact Hr]. cbn. intros p Hp. lra.
  - unfold same_shape, shape0, shape1, Temperature.scaled_logits in *.
    cbn [rows ncols] in Hs. rewrite length_map in Hs. exact Hs.
Qed.

Lemma apply_temperature_scaling_is_probability_matrix_witness :
  exists Q,
    Ieee._apply_temperature_scaling (Ieee.of_reals (Array2 2 [[1/4; 3/4]]))
      (Ieee.Fin 2)
    = Ok (Ieee.of_reals Q) /\
    Temperature._apply_temperature_scaling (Array2 2 [[1/4; 3/4]]) 2 = Ok Q /\
    probability_matrix Q /\ same_shape (Array2 2 [[1/4; 3/4]]) Q = true.
Proof.
  apply (apply_temperature_scaling_is_probability_matrix
           (Array2 2 [[1/4; 3/4]]) 2).
  - repeat constructor.
  - cbn. lia.
  - cbn [ncols INR]. big_consts. lra.
  - repeat constructor; try lra; big_consts; lra.
  - lra.
Defined.

Lemma ln_below (x : R) : 0 < x -> x <> 1 -> ln x < x - 1.
Proof.
  intros Hx Hne.
  assert (Hl : ln x <> 0).
  { intros H0. apply Hne. rewrite <- (exp_ln x Hx), H0. apply exp_0. }
  pose proof (exp_ineq1 (ln x) Hl) as H. rewrite exp_ln in H by exact Hx. lra.
Qed.

(** At the least positive binary64 temperature the logit of 0.5 is minus
    infinity. *)
Lemma scaled_logit_overflows :
  Ieee.fdiv (Ieee.flog (Ieee.fadd (Ieee.Fin (1/2)) (Ieee.Fin Temperature.floor_eps)))
    (Ieee.Fin (/ IZR (2 ^ 1074)))
  = Ieee.NInf.
Proof.
  assert (HK : 0 < IZR (2 ^ 1074)).
  { let v := eval vm_compute in (2 ^ 1074)%Z in change (2 ^ 1074)%Z with v. lra. }
  cbn [Ieee.fadd]. rewrite round_fin by (big_consts; lra).
  cbn [Ieee.flog].
  rewrite (bool_decide_eq_true_2 (0 < 1/2 + Temperature.floor_eps))
    by (unfold Temperature.floor_eps; lra).
  cbn [Ieee.fdiv].
  rewrite (bool_decide_eq_true_2 (0 < / IZR (2 ^ 1074)))
    by (apply Rinv_0_lt_compat; exact HK).
  rewrite orb_true_r.
  assert (Hln : ln (1/2 + Temperature.floor_eps) < - (4/10)).
  { pose proof (ln_below (1/2 + Temperature.floor_eps)) as H.
    unfold Temperature.floor_eps in *. lra. }
  assert (Hlow : ln (1/2 + Temperature.floor_eps) / / IZR (2 ^ 1074)
                 <= - Ieee.overflow_threshold).
  { unfold Rdiv. rewrite Rinv_inv.
    apply Rle_trans with (- (4/10) * IZR (2 ^ 1074)); [nra|].
    unfold Ieee.overflow_threshold.
    let v := eval vm_compute in (2 ^ 1074)%Z in change (2 ^ 1074)%Z with v.
    let v := eval vm_compute in (2 ^ 1024 - 2 ^ 970)%Z in
      change (2 ^ 1024 - 2 ^ 970)%Z with v.
    lra. }
  unfold Ieee.round.
  assert (0 < Ieee.overflow_threshold) by (big_consts; lra).
  rewrite bool_decide_eq_false_2 by lra.
  rewrite bool_decide_eq_true_2 by exact Hlow. reflexivity.
Qed.

(** C10 as stated fails: 5e-324, the least positive binary64 number, is a
    temperature above zero, and on the row [0.5, 0.5] both scaled logits
    overflow to minus infinity, their difference with the row maximum is
    nan, and so is every entry of the result. *)
Lemma apply_temperature_scaling_overflows_to_nan :
  let P := Array2 2 [[1/2; 1/2]] in
  let tiny := / IZR (2 ^ 1074) in
  wf_array2 P /\ Forall (Forall (fun p => 0 < p)) (rows P) /\ 0 < tiny /\
  Ieee._apply_temperature_scaling (Ieee.of_reals P) (Ieee.Fin tiny)
  = Ok (Array2 2 [[Ieee.NaN; Ieee.NaN]]) /\
  ~ (exists Q, Array2 2 [[Ieee.NaN; Ieee.NaN]] = Ieee.of_reals Q).
Proof.
  cbv zeta. split; [repeat constructor|].
  split; [repeat constructor; lra|].
  split.
  { apply Rinv_0_lt_compat.
    let v := eval vm_compute in (2 ^ 1074)%Z in change (2 ^ 1074)%Z with v. lra. }
  split.
  - unfold Ieee._apply_temperature_scaling, Ieee.scaled_logits, Ieee.of_reals.
    cbn [ncols rows map]. rewrite scaled_logit_overflows. reflexivity.
  - intros [[c [|r rs]] H]; [discriminate H|].
    unfold Ieee.of_reals in H. cbn [ncols rows map] in H.
    destruct r as [|x r]; cbn [map] in H; discriminate H.
Qed.

(** *** Temperature 1 *)








(** ** Temperature fit: inputs are not validated *)

(** The size of a bin is the number of probabilities in it: without rows
    no bin is filled, and the ECE divides by zero. *)
Lemma mask_count_in (P : array2 R) (lo hi : R) :
  mask_count (Metrics.in_bin_mask P lo hi) = count_in lo hi (flat P).
Proof.
  unfold mask_count, count_in. rewrite flat_in_bin_mask.
  induction (flat P) as [|p ps IH]; [reflexivity|].
  cbn [map List.filter]. destruct (Metrics.in_bin lo hi p); cbn [length];
    rewrite IH; reflexivity.
Qed.

Lemma ece_step_no_rows (P : array2 R) (y_true : ndarray) (acc : R) (b : R * R) :
  rows P = [] -> Metrics.ece_step P y_true acc b = Ok acc.
Proof.
  intros HP. unfold Metrics.ece_step. cbv zeta. rewrite mask_count_in.
  unfold flat. rewrite HP. reflexivity.
Qed.

Lemma ece_loop_no_rows (P : array2 R) (y_true : ndarray) (bs : list (R * R)) :
  rows P = [] ->
  forall acc, for_each (Metrics.ece_step P y_true) bs acc = Ok acc.
Proof.
  intros HP. induction bs as [|b bs IH]; intros acc; [reflexivity|].
  cbn [for_each]. rewrite ece_step_no_rows by exact HP.
  cbn [mbind result_bind]. apply IH.
Qed.

Lemma calculate_ece_zero_rows (P : array2 R) (y_true : ndarray) (n_bins : nat) :
  shape0 P = 0%nat ->
  Metrics._calculate_ece P y_true n_bins = Raise ZeroDivisionError.
Proof.
  intros HN. unfold Metrics._calculate_ece.
  rewrite ece_loop_no_rows by (apply length_zero_iff_nil; exact HN).
  cbn [mbind result_bind]. rewrite HN. reflexivity.
Qed.



Section TemperatureFit.
Variables keras_model images history_entry isotonic_model : Type.
Variable load_keras_model : string -> result keras_model.
Variable predict : keras_model -> images -> result (array2 R).
Variable brier_score_loss : list R -> list R -> result R.
Variable plot : array2 R -> ndarray -> string -> result unit.
Variable iterencode : calibration_data history_entry -> list string * option exn.



End TemperatureFit.



(** * Further properties *)

(** ** Further properties of the metric engine *)

Lemma count_split (lo hi : R) (ps : list R) :
  lo <= hi -> (count_in lo hi ps + count_from hi ps = count_from lo ps)%nat.
Proof.
  intros Hle. unfold count_in, count_from, Metrics.in_bin.
  induction ps as [|p ps IH]; [reflexivity|].
  cbn [List.filter].
  repeat case_bool_decide; cbn [andb length]; try lia; lra.
Qed.

Lemma sum_list_cons (x : nat) (l : list nat) :
  sum_list (x :: l) = (x + sum_list l)%nat.
Proof. reflexivity. Qed.

Lemma count_telescope (f : nat -> R) (ps : list R) :
  (forall i, f i <= f (S i)) ->
  forall k s,
  (sum_list (map (fun b => count_in (fst b) (snd b) ps)
               (adjacent (map f (seq s (S k)))))
   + count_from (f (s + k)%nat) ps = count_from (f s) ps)%nat.
Proof.
  intros Hmono. induction k as [|k IH]; intros s.
  - cbn [seq map adjacent removelast tl combine sum_list].
    rewrite Nat.add_0_r. reflexivity.
  - change (seq s (S (S k))) with (s :: S s :: seq (S (S s)) k).
    cbn [map]. rewrite adjacent_cons. cbn [map fst snd]. rewrite sum_list_cons.
    specialize (IH (S s)). cbn [seq map] in IH.
    replace (s + S k)%nat with (S s + k)%nat by lia.
    pose proof (count_split (f s) (f (S s)) ps (Hmono s)) as Hsplit.
    cbn [map] in *. lia.
Qed.

Lemma boundary_first (n_bins : nat) : 0 + INR 0 * ((1 - 0) / INR n_bins) = 0.
Proof. cbn [INR]. lra. Qed.

Lemma boundary_last (n_bins : nat) :
  (0 < n_bins)%nat -> 0 + INR n_bins * ((1 - 0) / INR n_bins) = 1.
Proof. intros H. assert (0 < INR n_bins) by (apply lt_0_INR; lia). field. lra. Qed.

(** Every probability in [[0, 1)] lies in exactly one bin. *)
Lemma bins_partition (n_bins : nat) (ps : list R) :
  (0 < n_bins)%nat ->
  sum_list (map (fun b => count_in (fst b) (snd b) ps) (Metrics.bins n_bins))
  = count_in 0 1 ps.
Proof.
  intros Hn. unfold Metrics.bins, np_linspace.
  replace (n_bins + 1)%nat with (S n_bins) by lia.
  replace (S n_bins - 1)%nat with n_bins by lia.
  pose proof (count_telescope (fun i => 0 + INR i * ((1 - 0) / INR n_bins)) ps
                (boundaries_monotone n_bins) n_bins 0%nat) as H.
  cbn beta in H. rewrite Nat.add_0_l in H.
  rewrite boundary_first, (boundary_last n_bins Hn) in H.
  pose proof (count_split 0 1 ps ltac:(lra)).
  fold (adjacent (map (fun i => 0 + INR i * ((1 - 0) / INR n_bins)) (seq 0 (S n_bins)))).
  lia.
Qed.

Section ReliabilityRefinement.
Variables P Y : array2 R.
Hypothesis HP : wf_array2 P.
Hypothesis HY : wf_array2 Y.
Hypothesis Hshape : same_shape P Y = true.


Lemma reliability_step_entries (acc : Metrics.reliability_data) (b : R * R) :
  Metrics.reliability_step P (Arr2 Y) acc b =
  Ok (let es := bin_entries (entries P Y) b in
      if (0 <? length es)%nat
      then Metrics.Reliability
             (Metrics.accuracies acc ++ [bin_accuracy es])
             (Metrics.confidences acc ++ [bin_confidence es])
             (Metrics.bin_sizes acc ++ [length es])
      else acc).
Proof.
  pose proof (same_shape_flat P Y HP HY Hshape) as Hlen.
  unfold Metrics.reliability_step, bool_index, mask_count.
  rewrite (same_shape_mask P Y Hshape), flat_in_bin_mask.
  rewrite (count_map _ _ _ Hlen).
  rewrite (select_map _ (flat P) (flat Y)), (select_map_self _ _ _ Hlen).
  fold (entries P Y).
  change (List.filter (fun e : R * R => Metrics.in_bin (fst b) (snd b) (fst e))
            (entries P Y))
    with (bin_entries (entries P Y) b).
  cbv zeta.
  destruct (0 <? length (bin_entries (entries P Y) b))%nat; reflexivity.
Qed.

Lemma reliability_loop_entries (bs : list (R * R)) (acc : Metrics.reliability_data) :
  for_each (Metrics.reliability_step P (Arr2 Y)) bs acc =
  let L := List.filter (fun es => (0 <? length es)%nat)
             (map (bin_entries (entries P Y)) bs) in
  Ok (Metrics.Reliability
        (Metrics.accuracies acc ++ map bin_accuracy L)
        (Metrics.confidences acc ++ map bin_confidence L)
        (Metrics.bin_sizes acc ++ map (@length _) L)).
Proof.
  cbv zeta. revert acc.
  induction bs as [|b bs IH]; intros acc; cbn [for_each map List.filter].
  - rewrite !app_nil_r. destruct acc; reflexivity.
  - rewrite reliability_step_entries. cbn [mbind result_bind]. rewrite IH.
    cbv zeta.
    destruct (0 <? length (bin_entries (entries P Y) b))%nat;
      cbn [Metrics.accuracies Metrics.confidences Metrics.bin_sizes map];
      rewrite <- ?app_assoc; reflexivity.
Qed.

Lemma calculate_reliability_entries (n_bins : nat) :
  Metrics._calculate_reliability P (Arr2 Y) n_bins =
  Ok (Metrics.Reliability
        (map bin_accuracy (nonempty_bins P Y n_bins))
        (map bin_confidence (nonempty_bins P Y n_bins))
        (map (@length _) (nonempty_bins P Y n_bins))).
Proof.
  unfold Metrics._calculate_reliability. rewrite reliability_loop_entries.
  reflexivity.
Qed.


End ReliabilityRefinement.



(** *** Empty datasets *)

(** With no sample the ECE is a division of 0.0 by zero: the computation
    raises ZeroDivisionError, whatever the labels and the number of bins. *)
Theorem calculate_ece_no_sample (P : array2 R) (y_true : ndarray) (n_bins : nat) :
  shape0 P = 0%nat ->
  Metrics._calculate_ece P y_true n_bins = Raise ZeroDivisionError.
Proof. apply calculate_ece_zero_rows. Qed.

Lemma calculate_ece_no_sample_witness :
  Metrics._calculate_ece (Array2 3 []) (Arr1 []) 15 = Raise ZeroDivisionError.
Proof.
  apply (calculate_ece_no_sample (Array2 3 []) (Arr1 []) 15). reflexivity.
Defined.

(** [evaluate_calibration] never returns metrics for an empty dataset. *)
Theorem evaluate_calibration_no_sample
    (brier : list R -> list R -> result R) (P : array2 R) (y_true : ndarray)
    (method : string) :
  shape0 P = 0%nat -> raises (evaluate_calibration brier P y_true method).
Proof.
  intros HN. unfold evaluate_calibration.
  destruct (for_each (brier_step brier P y_true) (seq 0 (shape1 P)) [])
    as [bs|e]; cbn [mbind result_bind].
  - rewrite (calculate_ece_zero_rows P y_true 15 HN). cbn [mbind result_bind].
    exists ZeroDivisionError. reflexivity.
  - exists e. reflexivity.
Qed.

Lemma evaluate_calibration_no_sample_witness :
  raises (evaluate_calibration (fun _ _ => Ok 0) (Array2 2 [])
            (Arr2 (Array2 2 [])) "original").
Proof.
  apply (evaluate_calibration_no_sample (fun _ _ => Ok 0) (Array2 2 [])
           (Arr2 (Array2 2 [])) "original").
  reflexivity.
Defined.

(** *** Labels equal to the probabilities *)

Lemma bin_gap_diagonal (es : list (R * R)) :
  Forall (fun e => snd e = fst e) es -> bin_gap es = 0.
Proof.
  intros H. rewrite bin_gap_abs. destruct es as [|e es]; [reflexivity|].
  assert (Heq : map snd (e :: es) = map fst (e :: es)).
  { induction H as [|a l Ha Hl IH]; [reflexivity|]. cbn [map]. congruence. }
  rewrite Heq, Rminus_diag, Rabs_R0. reflexivity.
Qed.

Lemma entries_diagonal (ps : list R) :
  Forall (fun e : R * R => snd e = fst e) (combine ps ps).
Proof. induction ps as [|p ps IH]; cbn [combine]; constructor; auto. Qed.

Lemma gap_sum_self (P : array2 R) (n_bins : nat) : gap_sum P P n_bins = 0.
Proof.
  unfold gap_sum.
  induction (Metrics.bins n_bins) as [|b bs IH]; cbn [map List.filter].
  - reflexivity.
  - assert (Hb : bin_gap (bin_entries (entries P P) b) = 0).
    { apply bin_gap_diagonal. unfold bin_entries, entries.
      apply List.Forall_forall. intros e He.
      apply List.filter_In in He as [He _].
      pose proof (entries_diagonal (flat P)) as Hd.
      rewrite List.Forall_forall in Hd. apply Hd. exact He. }
    destruct (0 <? length (bin_entries (entries P P) b))%nat; [|exact IH].
    cbn [map]. rewrite np_sum_cons, Hb, IH. lra.
Qed.

(** When the labels are the probabilities themselves (in particular when
    the predictions are exactly the one-hot labels) the ECE is 0. *)
Theorem calculate_ece_of_exact_predictions (P : array2 R) (n_bins : nat) :
  wf_array2 P -> (0 < shape0 P)%nat ->
  Metrics._calculate_ece P (Arr2 P) n_bins = Ok 0.
Proof.
  intros HP HN. rewrite calculate_ece_rows; try assumption.
  - rewrite gap_sum_self. f_equal. unfold Rdiv. apply Rmult_0_l.
  - unfold same_shape. rewrite !Nat.eqb_refl. reflexivity.
Qed.

Lemma calculate_ece_of_exact_predictions_witness :
  Metrics._calculate_ece (Array2 2 [[1; 0]; [0; 1]])
    (Arr2 (Array2 2 [[1; 0]; [0; 1]])) 15 = Ok 0.
Proof.
  apply (calculate_ece_of_exact_predictions (Array2 2 [[1; 0]; [0; 1]]) 15).
  - repeat constructor.
  - cbn. lia.
Defined.

(** *** Labels that cannot be indexed *)

Lemma loop_raises_on_nonempty_bin {B} (step : B -> R * R -> result B)
    (cnt : R * R -> nat) (bs : list (R * R)) :
  (forall acc b, step acc b = if (0 <? cnt b)%nat then Raise IndexError else Ok acc) ->
  (0 < sum_list (map cnt bs))%nat ->
  forall acc, for_each step bs acc = Raise IndexError.
Proof.
  intros Hstep. induction bs as [|b bs IH]; intros Hpos acc.
  - cbn in Hpos. lia.
  - cbn [for_each]. rewrite Hstep.
    destruct (0 <? cnt b)%nat eqn:E; [reflexivity|].
    cbn [mbind result_bind]. apply IH.
    cbn [map] in Hpos. rewrite sum_list_cons in Hpos.
    apply Nat.ltb_ge in E. lia.
Qed.

(** *** Ranges of the reliability diagram *)

Lemma np_sum_bounds (a b : R) (l : list R) :
  Forall (fun x => a <= x <= b) l ->
  INR (length l) * a <= np_sum l <= INR (length l) * b.
Proof.
  induction 1 as [|x l Hx Hl IH].
  - unfold np_sum. cbn. lra.
  - rewrite np_sum_cons. change (length (x :: l)) with (S (length l)).
    rewrite S_INR. lra.
Qed.

Lemma np_sum_below (b : R) (l : list R) :
  l <> [] -> Forall (fun x => x < b) l -> np_sum l < INR (length l) * b.
Proof.
  intros Hne H. induction H as [|x l Hx Hl IH]; [congruence|].
  rewrite np_sum_cons. change (length (x :: l)) with (S (length l)).
  rewrite S_INR. destruct l as [|y l].
  - unfold np_sum. cbn. lra.
  - specialize (IH ltac:(discriminate)). lra.
Qed.

Lemma mean_bounds (a b : R) (l : list R) :
  l <> [] -> Forall (fun x => a <= x <= b) l -> a <= mean l <= b.
Proof.
  intros Hne H. pose proof (np_sum_bounds a b l H) as [H1 H2].
  assert (Hn : 0 < INR (length l)).
  { apply lt_0_INR. destruct l; [congruence | cbn; lia]. }
  unfold mean. split.
  - apply (Rmult_le_reg_r (INR (length l))); [exact Hn|].
    replace (np_sum l / INR (length l) * INR (length l)) with (np_sum l)
      by (field; lra). lra.
  - apply (Rmult_le_reg_r (INR (length l))); [exact Hn|].
    replace (np_sum l / INR (length l) * INR (length l)) with (np_sum l)
      by (field; lra). lra.
Qed.

Lemma mean_below (b : R) (l : list R) :
  l <> [] -> Forall (fun x => x < b) l -> mean l < b.
Proof.
  intros Hne H. pose proof (np_sum_below b l Hne H) as H1.
  assert (Hn : 0 < INR (length l)).
  { apply lt_0_INR. destruct l; [congruence | cbn; lia]. }
  unfold mean.
  apply (Rmult_lt_reg_r (INR (length l))); [exact Hn|].
  replace (np_sum l / INR (length l) * INR (length l)) with (np_sum l)
    by (field; lra). lra.
Qed.

Lemma mean_above (a : R) (l : list R) :
  l <> [] -> Forall (fun x => a <= x) l -> a <= mean l.
Proof.
  intros Hne H.
  assert (Hs : INR (length l) * a <= np_sum l).
  { clear Hne. induction H as [|x l Hx Hl IH]; [unfold np_sum; cbn; lra|].
    rewrite np_sum_cons. change (length (x :: l)) with (S (length l)).
    rewrite S_INR. lra. }
  assert (Hn : 0 < INR (length l)).
  { apply lt_0_INR. destruct l; [congruence | cbn; lia]. }
  unfold mean.
  apply (Rmult_le_reg_r (INR (length l))); [exact Hn|].
  replace (np_sum l / INR (length l) * INR (length l)) with (np_sum l)
    by (field; lra). lra.
Qed.

Lemma bin_entries_in_bin (es : list (R * R)) (b : R * R) :
  Forall (fun e => fst b <= fst e < snd b) (bin_entries es b).
Proof.
  apply List.Forall_forall. intros e He. unfold bin_entries in He.
  apply List.filter_In in He as [_ He]. unfold Metrics.in_bin in He.
  apply andb_true_iff in He as [H1 H2].
  apply bool_decide_eq_true_1 in H1, H2. split; assumption.
Qed.

Lemma bin_confidence_in_bin (es : list (R * R)) (b : R * R) :
  bin_entries es b <> [] ->
  fst b <= bin_confidence (bin_entries es b) < snd b.
Proof.
  intros Hne. pose proof (bin_entries_in_bin es b) as H.
  assert (Hne' : map fst (bin_entries es b) <> [])
    by (destruct (bin_entries es b); [congruence | discriminate]).
  unfold bin_confidence. split.
  - apply mean_above; [exact Hne'|]. apply List.Forall_map.
    eapply List.Forall_impl; [|exact H]. cbn. intros; lra.
  - apply mean_below; [exact Hne'|]. apply List.Forall_map.
    eapply List.Forall_impl; [|exact H]. cbn. intros; lra.
Qed.

Lemma nonempty_nil {A} (l : list A) : (0 <? length l)%nat = true -> l <> [].
Proof. destruct l; [discriminate | discriminate]. Qed.

Lemma bin_in_unit_interval (n_bins : nat) (b : R * R) :
  In b (Metrics.bins n_bins) -> 0 <= fst b /\ snd b <= 1.
Proof.
  intros Hin. destruct (bins_in n_bins b Hin) as (i & Hi & ->). cbn [fst snd].
  assert (Hn : 0 < INR n_bins) by (apply lt_0_INR; lia).
  assert (H0 : 0 <= INR i) by apply pos_INR.
  assert (Hle : INR (S i) <= INR n_bins) by (apply le_INR; lia).
  assert (Hw : 0 < (1 - 0) / INR n_bins) by (apply Rdiv_lt_0_compat; lra).
  split; [nra|].
  replace (0 + INR (S i) * ((1 - 0) / INR n_bins)) with (INR (S i) / INR n_bins)
    by (field; lra).
  apply (Rmult_le_reg_r (INR n_bins)); [exact Hn|].
  replace (INR (S i) / INR n_bins * INR n_bins) with (INR (S i)) by (field; lra).
  lra.
Qed.

Lemma label_entries (P Y : array2 R) (a b : R) :
  Forall (Forall (fun y => a <= y <= b)) (rows Y) ->
  Forall (fun e => a <= snd e <= b) (entries P Y).
Proof.
  intros HY. apply List.Forall_forall. intros [p y] He.
  unfold entries in He. apply in_combine_r in He. unfold flat in He.
  apply in_concat in He as (r & Hr & Hy).
  rewrite List.Forall_forall in HY. specialize (HY r Hr).
  rewrite List.Forall_forall in HY. exact (HY y Hy).
Qed.

Lemma bin_accuracy_range (es : list (R * R)) (a b : R) :
  es <> [] -> Forall (fun e => a <= snd e <= b) es ->
  a <= bin_accuracy es <= b.
Proof.
  intros Hne H. unfold bin_accuracy.
  replace (length es) with (length (map snd es)) by apply length_map.
  apply mean_bounds.
  - destruct es; [congruence | discriminate].
  - apply List.Forall_map. exact H.
Qed.

(** The points of the reliability diagram lie in the unit square: every
    confidence lies in [[0, 1]], and with labels in [[0, 1]] so does every
    accuracy. *)
Theorem reliability_diagram_in_unit_square (P Y : array2 R) (n_bins : nat) :
  wf_array2 P -> wf_array2 Y -> same_shape P Y = true ->
  Forall (Forall (fun y => 0 <= y <= 1)) (rows Y) ->
  exists r,
    Metrics._calculate_reliability P (Arr2 Y) n_bins = Ok r /\
    Forall (fun c => 0 <= c <= 1) (Metrics.confidences r) /\
    Forall (fun a => 0 <= a <= 1) (Metrics.accuracies r).
Proof.
  intros HP HY Hs Hlab. eexists. split.
  - apply calculate_reliability_entries; assumption.
  - cbn [Metrics.accuracies Metrics.confidences]. unfold nonempty_bins. split.
    + apply List.Forall_map, List.Forall_forall. intros es Hes.
      apply List.filter_In in Hes as [Hin Hne].
      apply in_map_iff in Hin as (b & <- & Hb).
      pose proof (bin_confidence_in_bin (entries P Y) b (nonempty_nil _ Hne)).
      pose proof (bin_in_unit_interval n_bins b Hb). lra.
    + apply List.Forall_map, List.Forall_forall. intros es Hes.
      apply List.filter_In in Hes as [Hin Hne].
      apply in_map_iff in Hin as (b & <- & _).
      apply bin_accuracy_range; [apply nonempty_nil; exact Hne|].
      pose proof (label_entries P Y 0 1 Hlab) as Hl.
      rewrite List.Forall_forall in *. intros e He. apply Hl.
      unfold bin_entries in He. apply List.filter_In in He. apply He.
Qed.

Lemma reliability_diagram_in_unit_square_witness :
  exists r,
    Metrics._calculate_reliability (Array2 2 [[1/4; 3/4]; [1; 0]])
      (Arr2 (Array2 2 [[1; 0]; [1; 0]])) 10 = Ok r /\
    Forall (fun c => 0 <= c <= 1) (Metrics.confidences r) /\
    Forall (fun a => 0 <= a <= 1) (Metrics.accuracies r).
Proof.
  apply (reliability_diagram_in_unit_square
           (Array2 2 [[1/4; 3/4]; [1; 0]]) (Array2 2 [[1; 0]; [1; 0]]) 10).
  - repeat constructor.
  - repeat constructor.
  - reflexivity.
  - repeat constructor; lra.
Defined.

(** ** Further properties of softmax and temperature scaling *)

Lemma softmax_row_plain (r : list R) : softmax_row r = plain_softmax_row r.
Proof.
  unfold softmax_row, plain_softmax_row.
  set (m := Temperature.row_max r).
  assert (HM : 0 < exp m) by apply exp_pos.
  assert (Hex : map (fun v => exp (v - m)) r = map (fun e => e / exp m) (map exp r)).
  { rewrite map_map. apply map_ext. intros v.
    replace (v - m) with (v + - m) by lra.
    rewrite exp_plus, exp_Ropp. reflexivity. }
  rewrite Hex, np_sum_map_div, !map_map.
  destruct r as [|x t]; [reflexivity|].
  assert (HS : 0 < np_sum (map exp (x :: t))).
  { apply np_sum_positive; [|discriminate].
    apply List.Forall_map, List.Forall_forall. intros v _. apply exp_pos. }
  apply map_ext. intros v. field. lra.
Qed.

Lemma softmax_plain_rows (x : array2 R) :
  (0 < ncols x)%nat ->
  Temperature._softmax x = Ok (Array2 (ncols x) (map plain_softmax_row (rows x))).
Proof.
  intros Hc. rewrite softmax_rows by exact Hc. f_equal. f_equal.
  apply map_ext. apply softmax_row_plain.
Qed.

(** Subtracting the row maximum does not change the value of the softmax:
    every entry is exp(x_j) / sum_k exp(x_k). *)
Theorem softmax_is_plain_softmax (x : array2 R) :
  (0 < ncols x)%nat ->
  Temperature._softmax x = Ok (Array2 (ncols x) (map plain_softmax_row (rows x))).
Proof. apply softmax_plain_rows. Qed.

Lemma softmax_is_plain_softmax_witness :
  Temperature._softmax (Array2 2 [[0; 1]; [3; 3]])
  = Ok (Array2 2 (map plain_softmax_row [[0; 1]; [3; 3]])).
Proof.
  apply (softmax_is_plain_softmax (Array2 2 [[0; 1]; [3; 3]])). cbn. lia.
Defined.

(** Temperature scaling fails exactly on matrices without columns. *)
Theorem apply_temperature_scaling_raises_iff (P : array2 R) (temperature : R) :
  raises (Temperature._apply_temperature_scaling P temperature)
  <-> ncols P = 0%nat.
Proof.
  unfold Temperature._apply_temperature_scaling, Temperature._softmax,
    Temperature.np_max_axis1, Temperature.scaled_logits. cbn [ncols rows].
  destruct (ncols P =? 0)%nat eqn:E; cbn [mbind result_bind].
  - apply Nat.eqb_eq in E. split; [intros _; exact E|].
    intros _. exists ValueError. reflexivity.
  - apply Nat.eqb_neq in E. split; [|intros H; contradiction].
    intros [e He]. discriminate He.
Qed.

Lemma scaled_row_power (temperature : R) (r : list R) :
  plain_softmax_row
    (map (fun p => ln (p + Temperature.floor_eps) / temperature) r)
  = power_row temperature r.
Proof.
  unfold plain_softmax_row, power_row. rewrite !map_map.
  assert (H : forall p,
             exp (ln (p + Temperature.floor_eps) / temperature)
             = Rpower (p + Temperature.floor_eps) (1 / temperature)).
  { intros p. unfold Rpower. f_equal. unfold Rdiv. ring. }
  rewrite (map_ext _ _ H). apply map_ext. intros p. rewrite H. reflexivity.
Qed.

(** For the temperatures the fit can return or larger ones, temperature
    scaling raises every floored probability to the power 1/T and
    renormalises each row; no value overflows on the way. *)
Theorem apply_temperature_scaling_is_power (P : array2 R) (temperature : R) :
  wf_array2 P -> (0 < ncols P)%nat ->
  INR (ncols P) < Ieee.overflow_threshold ->
  Forall (Forall (fun p => 0 <= p <= Ieee.max_float)) (rows P) ->
  0.1 <= temperature ->
  Ieee._apply_temperature_scaling (Ieee.of_reals P) (Ieee.Fin temperature)
  = Ok (Ieee.of_reals
          (Array2 (ncols P) (map (power_row temperature) (rows P)))).
Proof.
  intros Hwf Hc Hlen Hpos HT.
  rewrite (apply_temperature_scaling_finite P temperature); try assumption;
    [|lra].
  unfold Temperature.scaled_logits. cbn [rows]. rewrite map_map.
  do 3 f_equal. apply map_ext. intros r.
  rewrite softmax_row_plain. apply scaled_row_power.
Qed.

Lemma apply_temperature_scaling_is_power_witness :
  Ieee._apply_temperature_scaling (Ieee.of_reals (Array2 2 [[1/4; 3/4]]))
    (Ieee.Fin 2)
  = Ok (Ieee.of_reals (Array2 2 (map (power_row 2) [[1/4; 3/4]]))).
Proof.
  apply (apply_temperature_scaling_is_power (Array2 2 [[1/4; 3/4]]) 2).
  - repeat constructor.
  - cbn. lia.
  - cbn [ncols INR]. big_consts. lra.
  - repeat constructor; try lra; big_consts; lra.
  - lra.
Defined.

(** *** The predicted class *)

Lemma argmax_from_map (g : R -> R) (D : R -> Prop) :
  (forall a b, D a -> D b -> (a < b <-> g a < g b)) ->
  forall l best best_i i,
  D best -> Forall D l ->
  argmax_from (g best) best_i i (map g l) = argmax_from best best_i i l.
Proof.
  intros Hg. induction l as [|x t IH]; intros best best_i i Hb Hl;
    [reflexivity|].
  inversion Hl as [|? ? Hx Ht]; subst. cbn [map argmax_from].
  pose proof (Hg best x Hb Hx) as Hiff.
  repeat case_bool_decide; try (exfalso; tauto); apply IH; assumption.
Qed.

Lemma argmax_map (g : R -> R) (D : R -> Prop) (r : list R) :
  (forall a b, D a -> D b -> (a < b <-> g a < g b)) ->
  Forall D r -> argmax (map g r) = argmax r.
Proof.
  intros Hg Hr. destruct r as [|x t]; [reflexivity|].
  inversion Hr; subst. cbn [map argmax]. apply (argmax_from_map g D); assumption.
Qed.

Lemma scaled_entry_monotone (temperature m S a b : R) :
  0 < temperature -> 0 < S ->
  0 < a + Temperature.floor_eps -> 0 < b + Temperature.floor_eps ->
  (a < b <->
   exp (ln (a + Temperature.floor_eps) / temperature - m) / S
   < exp (ln (b + Temperature.floor_eps) / temperature - m) / S).
Proof.
  intros HT HS Ha Hb.
  assert (HiT : 0 < / temperature) by (apply Rinv_0_lt_compat; exact HT).
  assert (HiS : 0 < / S) by (apply Rinv_0_lt_compat; exact HS).
  split.
  - intros Hlt. unfold Rdiv at 1 3.
    apply Rmult_lt_compat_r; [exact HiS|]. apply exp_increasing.
    assert (ln (a + Temperature.floor_eps) < ln (b + Temperature.floor_eps))
      by (apply ln_increasing; lra).
    unfold Rdiv. nra.
  - intros Hlt. unfold Rdiv at 1 3 in Hlt.
    apply Rmult_lt_reg_r in Hlt; [|exact HiS].
    apply exp_lt_inv in Hlt.
    assert (Hln : ln (a + Temperature.floor_eps) < ln (b + Temperature.floor_eps)).
    { unfold Rdiv in Hlt. nra. }
    apply ln_lt_inv in Hln; lra.
Qed.

Lemma softmax_row_keeps_argmax (temperature : R) (r : list R) :
  0 < temperature -> Forall (fun p => 0 <= p) r ->
  argmax (softmax_row
            (map (fun p => ln (p + Temperature.floor_eps) / temperature) r))
  = argmax r.
Proof.
  intros HT Hr. destruct r as [|x t]; [reflexivity|].
  unfold softmax_row. rewrite !map_map.
  set (l := x :: t) in *.
  set (m := Temperature.row_max _).
  set (S := np_sum _).
  assert (HS : 0 < S).
  { apply np_sum_positive; [|discriminate].
    apply List.Forall_map, List.Forall_forall. intros v _. apply exp_pos. }
  apply (argmax_map _ (fun p => 0 <= p)); [|exact Hr].
  intros a b Ha Hb. pose proof floor_eps_pos.
  apply scaled_entry_monotone; lra.
Qed.

Lemma nth_argmax_is_max (q : list R) :
  q <> [] -> nth (argmax q) q 0 = Temperature.row_max q.
Proof.
  intros Hne. destruct (argmax_spec q Hne) as [Hlt Hall].
  destruct (row_max_spec q Hne) as [Hin Hmax].
  rewrite List.Forall_forall in Hall, Hmax.
  apply Rle_antisym.
  - apply Hmax. apply nth_In. exact Hlt.
  - apply Hall. exact Hin.
Qed.

Lemma softmax_row_winner (temperature : R) (r : list R) :
  0 < temperature -> r <> [] -> Forall (fun p => 0 <= p) r ->
  let q := softmax_row
             (map (fun p => ln (p + Temperature.floor_eps) / temperature) r) in
  nth (argmax r) q 0 = Temperature.row_max q.
Proof.
  intros HT Hne Hr q.
  rewrite <- (softmax_row_keeps_argmax temperature r HT Hr). fold q.
  apply nth_argmax_is_max. unfold q, softmax_row.
  destruct r; [congruence | discriminate].
Qed.

Lemma Forall2_map_of {A B} (S : A -> B -> Prop) (f : A -> B) (l : list A) :
  (forall a, In a l -> S a (f a)) -> Forall2 S l (map f l).
Proof.
  induction l as [|a l IH]; intros H; cbn [map]; constructor.
  - apply H. left. reflexivity.
  - apply IH. intros b Hb. apply H. right. exact Hb.
Qed.

(** Temperature scaling never demotes the predicted class: in every row
    the class with the largest probability before scaling has the largest
    probability after it (ties may only appear through rounding, which is
    not modelled). *)
Theorem apply_temperature_scaling_keeps_winner (P : array2 R) (temperature : R) :
  wf_array2 P -> (0 < ncols P)%nat ->
  INR (ncols P) < Ieee.overflow_threshold ->
  Forall (Forall (fun p => 0 <= p <= Ieee.max_float)) (rows P) ->
  1e-300 <= temperature ->
  exists Q,
    Ieee._apply_temperature_scaling (Ieee.of_reals P) (Ieee.Fin temperature)
    = Ok (Ieee.of_reals Q) /\
    Forall2 (fun r q => nth (argmax r) q 0 = Temperature.row_max q)
      (rows P) (rows Q).
Proof.
  intros Hwf Hc Hlen Hpos HT. eexists. split.
  - apply apply_temperature_scaling_finite; assumption.
  - unfold Temperature.scaled_logits. cbn [rows]. rewrite map_map.
    apply Forall2_map_of. intros r Hr.
    unfold wf_array2 in Hwf. rewrite List.Forall_forall in Hwf, Hpos.
    apply softmax_row_winner.
    + lra.
    + intros ->. specialize (Hwf [] Hr). cbn in Hwf. lia.
    + eapply List.Forall_impl; [|exact (Hpos r Hr)]. cbn. intros p Hp. lra.
Qed.

Lemma apply_temperature_scaling_keeps_winner_witness :
  exists Q,
    Ieee._apply_temperature_scaling (Ieee.of_reals (Array2 2 [[1/4; 3/4]]))
      (Ieee.Fin 2)
    = Ok (Ieee.of_reals Q) /\
    Forall2 (fun r q => nth (argmax r) q 0 = Temperature.row_max q)
      (rows (Array2 2 [[1/4; 3/4]])) (rows Q).
Proof.
  apply (apply_temperature_scaling_keeps_winner (Array2 2 [[1/4; 3/4]]) 2).
  - repeat constructor.
  - cbn. lia.
  - cbn [ncols INR]. big_consts. lra.
  - repeat constructor; try lra; big_consts; lra.
  - lra.
Defined.

(** ** Label reductions *)

Lemma nth_one_hot_at (num_classes k j : nat) :
  (j < num_classes)%nat ->
  nth j (one_hot_at num_classes k) 0 = if (j =? k)%nat then 1 else 0.
Proof.
  intros Hj. unfold one_hot_at. rewrite nth_map_seq by exact Hj. reflexivity.
Qed.

Lemma np_sum_indicator (k : nat) :
  forall n s,
  np_sum (map (fun j => if (j =? k)%nat then 1 else 0) (seq s n))
  = if bool_decide (s <= k < s + n)%nat then 1 else 0.
Proof.
  induction n as [|n IH]; intros s.
  - cbn. case_bool_decide; [lia | reflexivity].
  - cbn [seq map]. rewrite np_sum_cons, IH.
    destruct (Nat.eqb_spec s k) as [-> | Hne];
      repeat case_bool_decide; try lia; lra.
Qed.

Lemma one_hot_at_row (num_classes k : nat) :
  (k < num_classes)%nat -> one_hot_row (one_hot_at num_classes k).
Proof.
  intros Hk. split.
  - unfold one_hot_at. apply List.Forall_map, List.Forall_forall.
    intros j _. destruct (j =? k)%nat; [right | left]; reflexivity.
  - unfold one_hot_at. rewrite np_sum_indicator.
    case_bool_decide; [reflexivity | lia].
Qed.

Lemma argmax_one_hot_at (num_classes k : nat) :
  (k < num_classes)%nat -> argmax (one_hot_at num_classes k) = k.
Proof.
  intros Hk. pose proof (argmax_one_hot _ (one_hot_at_row num_classes k Hk)) as H1.
  assert (Hne : one_hot_at num_classes k <> []).
  { unfold one_hot_at. destruct num_classes; [lia | discriminate]. }
  destruct (argmax_spec _ Hne) as [Hlt _].
  unfold one_hot_at in Hlt at 2. rewrite length_map, length_seq in Hlt.
  rewrite nth_one_hot_at in H1 by exact Hlt.
  destruct (Nat.eqb_spec (argmax (one_hot_at num_classes k)) k); [assumption | lra].
Qed.

(** [prepare_calibration_data] undoes the one-hot encoding: from the
    one-hot rows of the class indices [ys] it returns the predictions as
    they are and the one-dimensional array [ys]. *)
Theorem prepare_calibration_data_recovers_indices
    (keras_model images : Type)
    (predict : keras_model -> images -> result (array2 R))
    (m : keras_model) (X_val : images) (P : array2 R)
    (num_classes : nat) (ys : list nat) :
  predict m X_val = Ok P -> (0 < num_classes)%nat ->
  Forall (fun k => (k < num_classes)%nat) ys ->
  prepare_calibration_data keras_model images predict m X_val
    (Arr2 (Array2 num_classes (map (one_hot_at num_classes) ys)))
  = Ok (P, Arr1 (map INR ys)).
Proof.
  intros HP Hc Hys. unfold prepare_calibration_data, np_argmax_axis1.
  rewrite HP. cbn [mbind result_bind ncols rows].
  destruct (num_classes =? 0)%nat eqn:E; [apply Nat.eqb_eq in E; lia|].
  cbn [mbind result_bind].
  assert (H : map argmax (map (one_hot_at num_classes) ys) = ys).
  { induction Hys as [|k ys Hk Hys IH]; [reflexivity|].
    cbn [map]. rewrite IH, (argmax_one_hot_at num_classes k Hk). reflexivity. }
  rewrite H. reflexivity.
Qed.

Lemma prepare_calibration_data_recovers_indices_witness :
  prepare_calibration_data unit unit (fun _ _ => Ok (Array2 3 [])) () ()
    (Arr2 (Array2 3 (map (one_hot_at 3) [2%nat; 0%nat; 1%nat])))
  = Ok (Array2 3 [], Arr1 (map INR [2%nat; 0%nat; 1%nat])).
Proof.
  apply (prepare_calibration_data_recovers_indices unit unit
           (fun _ _ => Ok (Array2 3 [])) () () (Array2 3 []) 3
           [2%nat; 0%nat; 1%nat]).
  - reflexivity.
  - lia.
  - repeat constructor.
Defined.

(** ** The scalers *)

(** With one-dimensional labels the Platt and the isotonic reductions raise
    before any model is fitted: ValueError when the probability matrix has
    no column, AxisError otherwise. *)
Theorem scalers_reject_class_indices
    (isotonic_model : Type)
    (lr_fit : array2 R -> list nat -> result fitted_lr)
    (isotonic_fit : list R -> list R -> result isotonic_model)
    (P : array2 R) (v : list R) :
  platt_scaling lr_fit P (Arr1 v)
  = Raise (if (ncols P =? 0)%nat then ValueError else AxisError) /\
  isotonic_calibration isotonic_model isotonic_fit P (Arr1 v)
  = Raise (if (ncols P =? 0)%nat then ValueError else AxisError).
Proof.
  unfold platt_scaling, platt_features, platt_targets, isotonic_calibration,
    np_argmax_axis1, np_max_axis1_nd, Temperature.np_max_axis1.
  destruct (ncols P =? 0)%nat; split; reflexivity.
Qed.

Lemma row_max_one_hot (y : list R) : one_hot_row y -> Temperature.row_max y = 1.
Proof.
  intros Hy. pose proof (one_hot_row_has_one y Hy) as H1.
  assert (Hne : y <> []) by (intros ->; destruct H1).
  destruct (row_max_spec y Hne) as [Hin Hmax]. destruct Hy as [H01 _].
  rewrite List.Forall_forall in Hmax, H01.
  specialize (Hmax 1 H1). destruct (H01 _ Hin) as [H | H]; lra.
Qed.

(** On one-hot labels the isotonic regression is fitted against a target
    that is 1.0 for every sample. *)
Theorem isotonic_target_is_constant
    (isotonic_model : Type)
    (isotonic_fit : list R -> list R -> result isotonic_model)
    (P Y : array2 R) :
  (0 < ncols P)%nat -> (0 < ncols Y)%nat -> one_hot Y ->
  isotonic_calibration isotonic_model isotonic_fit P (Arr2 Y)
  = isotonic_fit (map Temperature.row_max (rows P)) (map (fun _ => 1) (rows Y)).
Proof.
  intros HcP HcY [_ HY].
  unfold isotonic_calibration, np_max_axis1_nd, Temperature.np_max_axis1.
  destruct (ncols P =? 0)%nat eqn:EP; [apply Nat.eqb_eq in EP; lia|].
  destruct (ncols Y =? 0)%nat eqn:EY; [apply Nat.eqb_eq in EY; lia|].
  cbn [mbind result_bind]. f_equal. apply map_ext_in. intros y Hy.
  rewrite List.Forall_forall in HY. apply row_max_one_hot, HY, Hy.
Qed.

Lemma isotonic_target_is_constant_witness :
  isotonic_calibration (list R) (fun _ t => Ok t) (Array2 2 [[9/10; 1/10]])
    (Arr2 (Array2 2 [[0; 1]]))
  = (fun (_ : list R) t => Ok t)
      (map Temperature.row_max [[9/10; 1/10]]) (map (fun _ => 1) [[0; 1]]).
Proof.
  apply (isotonic_target_is_constant (list R) (fun _ t => Ok t)
           (Array2 2 [[9/10; 1/10]]) (Array2 2 [[0; 1]])).
  - cbn. lia.
  - cbn. lia.
  - split; [repeat constructor | solve_rows].
Defined.

(** ** Evaluation on aligned labels *)

Lemma brier_step_aligned (f : list R -> list R -> R) (P Y : array2 R)
    (acc : list R) (i : nat) :
  ncols Y = ncols P -> (i < ncols P)%nat ->
  brier_step (fun yt yp => Ok (f yt yp)) P (Arr2 Y) acc i
  = Ok (acc ++ [f (map (fun r => nth i r 0) (rows Y))
                  (map (fun r => nth i r 0) (rows P))]).
Proof.
  intros Hc Hi. unfold brier_step, column. rewrite Hc.
  destruct (i <? ncols P)%nat eqn:E; [|apply Nat.ltb_ge in E; lia].
  reflexivity.
Qed.

Lemma brier_loop (f : list R -> list R -> R) (P Y : array2 R) :
  ncols Y = ncols P ->
  forall n s acc, (s + n <= ncols P)%nat ->
  for_each (brier_step (fun yt yp => Ok (f yt yp)) P (Arr2 Y)) (seq s n) acc
  = Ok (acc ++ map (fun i => f (map (fun r => nth i r 0) (rows Y))
                               (map (fun r => nth i r 0) (rows P)))
                (seq s n)).
Proof.
  intros Hc. induction n as [|n IH]; intros s acc Hle.
  - cbn. rewrite app_nil_r. reflexivity.
  - cbn [seq for_each map]. rewrite brier_step_aligned by (assumption || lia).
    cbn [mbind result_bind]. rewrite IH by lia.
    rewrite <- app_assoc. reflexivity.
Qed.

(** On labels of the shape of the probabilities, with at least one sample
    and a Brier score that is defined on every column, [evaluate_calibration]
    returns: one Brier score per class, their mean (nan when there is no
    class), and the ECE over 15 bins. *)
Theorem evaluate_calibration_returns
    (f : list R -> list R -> R) (P Y : array2 R) (method : string) :
  wf_array2 P -> wf_array2 Y -> same_shape P Y = true -> (0 < shape0 P)%nat ->
  exists m,
    evaluate_calibration (fun yt yp => Ok (f yt yp)) P (Arr2 Y) method = Ok m /\
    brier_scores_per_class m
    = map (fun i => f (map (fun r => nth i r 0) (rows Y))
                      (map (fun r => nth i r 0) (rows P)))
        (seq 0 (ncols P)) /\
    brier_score m = np_mean (brier_scores_per_class m) /\
    ece m = gap_sum P Y 15 / INR (shape0 P).
Proof.
  intros HP HY Hs HN. unfold evaluate_calibration.
  assert (Hc : ncols Y = ncols P).
  { unfold same_shape, shape1 in Hs. apply andb_true_iff in Hs as [_ Hs].
    apply Nat.eqb_eq in Hs. congruence. }
  unfold shape1. rewrite (brier_loop f P Y Hc) by lia.
  cbn [mbind result_bind app].
  rewrite (calculate_ece_rows P Y 15 HP HY Hs HN). cbn [mbind result_bind].
  rewrite (calculate_reliability_entries P Y HP HY Hs). cbn [mbind result_bind].
  eexists. split; [reflexivity|].
  cbn [brier_scores_per_class brier_score ece]. repeat split; reflexivity.
Qed.

Lemma evaluate_calibration_returns_witness :
  exists m,
    evaluate_calibration (fun yt yp => Ok (np_sum yt + np_sum yp))
      (Array2 2 [[1/4; 3/4]]) (Arr2 (Array2 2 [[1; 0]])) "original" = Ok m /\
    brier_scores_per_class m
    = map (fun i => np_sum (map (fun r => nth i r 0) [[1; 0]])
                    + np_sum (map (fun r => nth i r 0) [[1/4; 3/4]]))
        (seq 0 2) /\
    brier_score m = np_mean (brier_scores_per_class m) /\
    ece m = gap_sum (Array2 2 [[1/4; 3/4]]) (Array2 2 [[1; 0]]) 15 / INR 1.
Proof.
  apply (evaluate_calibration_returns (fun yt yp => np_sum yt + np_sum yp)
           (Array2 2 [[1/4; 3/4]]) (Array2 2 [[1; 0]]) "original").
  - repeat constructor.
  - repeat constructor.
  - reflexivity.
  - cbn. lia.
Defined.

(** *** Labels of another shape *)

Lemma bool_index_misshapen (P : array2 R) (y_true : ndarray) (lo hi : R) :
  misshapen P y_true ->
  bool_index y_true (Metrics.in_bin_mask P lo hi) = Raise IndexError.
Proof.
  destruct y_true as [v|Y]; [reflexivity|]. cbn [misshapen bool_index].
  intros H.
  replace (same_shape Y (Metrics.in_bin_mask P lo hi)) with (same_shape Y P).
  - rewrite H. reflexivity.
  - unfold same_shape, shape0, shape1, Metrics.in_bin_mask. cbn [rows ncols].
    rewrite length_map. reflexivity.
Qed.

Lemma ece_step_misshapen (P : array2 R) (y_true : ndarray) (acc : R) (b : R * R) :
  misshapen P y_true ->
  Metrics.ece_step P y_true acc b =
  if (0 <? count_in (fst b) (snd b) (flat P))%nat then Raise IndexError
  else Ok acc.
Proof.
  intros H. unfold Metrics.ece_step. cbv zeta.
  rewrite mask_count_in, (bool_index_misshapen P y_true _ _ H).
  destruct (0 <? count_in (fst b) (snd b) (flat P))%nat; reflexivity.
Qed.

Lemma reliability_step_misshapen (P : array2 R) (y_true : ndarray)
    (acc : Metrics.reliability_data) (b : R * R) :
  misshapen P y_true ->
  Metrics.reliability_step P y_true acc b =
  if (0 <? count_in (fst b) (snd b) (flat P))%nat then Raise IndexError
  else Ok acc.
Proof.
  intros H. unfold Metrics.reliability_step. cbv zeta.
  rewrite mask_count_in, (bool_index_misshapen P y_true _ _ H).
  destruct (0 <? count_in (fst b) (snd b) (flat P))%nat; reflexivity.
Qed.

(** With labels that are one-dimensional or of another shape than the
    probabilities, both binning functions raise IndexError as soon as one
    probability lies in [[0, 1)]. *)
Theorem binning_rejects_misshapen_labels (P : array2 R) (y_true : ndarray)
    (n_bins : nat) :
  misshapen P y_true -> (0 < n_bins)%nat -> (0 < count_in 0 1 (flat P))%nat ->
  Metrics._calculate_ece P y_true n_bins = Raise IndexError /\
  Metrics._calculate_reliability P y_true n_bins = Raise IndexError.
Proof.
  intros Hm Hn Hc. rewrite <- (bins_partition n_bins (flat P) Hn) in Hc. split.
  - unfold Metrics._calculate_ece.
    rewrite (loop_raises_on_nonempty_bin _
               (fun b => count_in (fst b) (snd b) (flat P)));
      [reflexivity | intros; apply ece_step_misshapen; exact Hm | exact Hc].
  - unfold Metrics._calculate_reliability.
    apply (loop_raises_on_nonempty_bin _
             (fun b => count_in (fst b) (snd b) (flat P)));
      [intros; apply reliability_step_misshapen; exact Hm | exact Hc].
Qed.

Lemma binning_rejects_misshapen_labels_witness :
  Metrics._calculate_ece (Array2 2 [[9/10; 1/10]]) (Arr2 (Array2 1 [[1]])) 15
  = Raise IndexError /\
  Metrics._calculate_reliability (Array2 2 [[9/10; 1/10]])
    (Arr2 (Array2 1 [[1]])) 15 = Raise IndexError.
Proof.
  apply (binning_rejects_misshapen_labels (Array2 2 [[9/10; 1/10]])
           (Arr2 (Array2 1 [[1]])) 15).
  - reflexivity.
  - lia.
  - unfold count_in, flat, Metrics.in_bin. cbn [rows concat app List.filter].
    decide_cmp. cbn. lia.
Defined.

(** *** Probabilities outside the bins *)

Lemma loop_skips_empty_bins {B} (step : B -> R * R -> result B)
    (cnt : R * R -> nat) (bs : list (R * R)) :
  (forall acc b, cnt b = 0%nat -> step acc b = Ok acc) ->
  Forall (fun b => cnt b = 0%nat) bs ->
  forall acc, for_each step bs acc = Ok acc.
Proof.
  intros Hstep H. induction H as [|b bs Hb Hbs IH]; intros acc; [reflexivity|].
  cbn [for_each]. rewrite (Hstep acc b Hb). cbn [mbind result_bind]. apply IH.
Qed.

Lemma sum_list_zero (l : list nat) :
  sum_list l = 0%nat -> Forall (fun x => x = 0%nat) l.
Proof.
  induction l as [|x l IH]; intros H; constructor;
    rewrite sum_list_cons in H; [lia | apply IH; lia].
Qed.

Lemma all_bins_empty (P : array2 R) (n_bins : nat) :
  count_in 0 1 (flat P) = 0%nat ->
  Forall (fun b => count_in (fst b) (snd b) (flat P) = 0%nat) (Metrics.bins n_bins).
Proof.
  intros Hc. destruct n_bins as [|n]; [constructor|].
  pose proof (bins_partition (S n) (flat P) ltac:(lia)) as Hp.
  rewrite Hc in Hp. apply sum_list_zero in Hp.
  rewrite List.Forall_map in Hp. exact Hp.
Qed.

(** When no probability lies in [[0, 1)] (all of them are exactly 1.0, for
    instance) the labels are never looked at, whatever their shape: the
    ECE is 0 and the reliability diagram is empty. *)
Theorem binning_ignores_labels_without_entries (P : array2 R)
    (y_true : ndarray) (n_bins : nat) :
  count_in 0 1 (flat P) = 0%nat -> (0 < shape0 P)%nat ->
  Metrics._calculate_ece P y_true n_bins = Ok 0 /\
  Metrics._calculate_reliability P y_true n_bins
  = Ok (Metrics.Reliability [] [] []).
Proof.
  intros Hc HN. pose proof (all_bins_empty P n_bins Hc) as Hall. split.
  - unfold Metrics._calculate_ece.
    rewrite (loop_skips_empty_bins _
               (fun b => count_in (fst b) (snd b) (flat P))); [| |exact Hall].
    + cbn [mbind result_bind].
      destruct (shape0 P =? 0)%nat eqn:E; [apply Nat.eqb_eq in E; lia|].
      f_equal. unfold Rdiv. apply Rmult_0_l.
    + intros acc b Hb. unfold Metrics.ece_step. cbv zeta.
      rewrite mask_count_in, Hb. reflexivity.
  - unfold Metrics._calculate_reliability.
    apply (loop_skips_empty_bins _
             (fun b => count_in (fst b) (snd b) (flat P))); [|exact Hall].
    intros acc b Hb. unfold Metrics.reliability_step. cbv zeta.
    rewrite mask_count_in, Hb. reflexivity.
Qed.

Lemma binning_ignores_labels_without_entries_witness :
  Metrics._calculate_ece (Array2 1 [[1]; [1]]) (Arr1 []) 15 = Ok 0 /\
  Metrics._calculate_reliability (Array2 1 [[1]; [1]]) (Arr1 []) 15
  = Ok (Metrics.Reliability [] [] []).
Proof.
  apply (binning_ignores_labels_without_entries (Array2 1 [[1]; [1]]) (Arr1 []) 15).
  - unfold count_in, flat, Metrics.in_bin. cbn [rows concat app List.filter].
    decide_cmp. reflexivity.
  - cbn. lia.
Defined.

(** *** Sign of the ECE *)

(** On any labels of the shape of the probabilities, and with at least one
    sample, the ECE is returned and is not negative. *)
Theorem calculate_ece_is_not_negative (P Y : array2 R) (n_bins : nat) :
  wf_array2 P -> wf_array2 Y -> same_shape P Y = true -> (0 < shape0 P)%nat ->
  exists e, Metrics._calculate_ece P (Arr2 Y) n_bins = Ok e /\ 0 <= e.
Proof.
  intros HP HY Hs HN. eexists. split; [apply calculate_ece_rows; assumption|].
  assert (Hn : 0 < INR (shape0 P)) by (apply lt_0_INR; lia).
  pose proof (gap_sum_nonneg P Y n_bins).
  apply Rmult_le_pos; [assumption|]. left. apply Rinv_0_lt_compat. exact Hn.
Qed.

Lemma calculate_ece_is_not_negative_witness :
  exists e,
    Metrics._calculate_ece (Array2 2 [[1/4; 3/4]]) (Arr2 (Array2 2 [[1; 0]])) 15
    = Ok e /\ 0 <= e.
Proof.
  apply (calculate_ece_is_not_negative (Array2 2 [[1/4; 3/4]])
           (Array2 2 [[1; 0]]) 15).
  - repeat constructor.
  - repeat constructor.
  - reflexivity.
  - cbn. lia.
Defined.

(** ** The objective of the temperature fit *)












(** On an empty dataset the objective is nan at every temperature, and the
    fit hands it to the minimizer all the same. *)
Theorem objective_of_empty_dataset (num_classes : nat) (temperature : R) :
  (0 < num_classes)%nat ->
  Temperature.objective (Array2 num_classes []) (Arr2 (Array2 num_classes []))
    temperature = Ok None.
Proof.
  intros Hc. unfold Temperature.objective.
  rewrite softmax_rows by exact Hc. cbn [mbind result_bind ncols rows map].
  unfold Temperature.scaled_logits. cbn [rows map].
  unfold Temperature.np_multiply, Temperature.as_2d, Temperature.broadcast_dim,
    shape0, shape1. cbn [rows ncols length Nat.eqb].
  rewrite Nat.eqb_refl. reflexivity.
Qed.

Lemma objective_of_empty_dataset_witness :
  Temperature.objective (Array2 3 []) (Arr2 (Array2 3 [])) 2 = Ok None.
Proof. apply (objective_of_empty_dataset 3 2). lia. Defined.

(** ** Further properties of persistence *)

Section PersistenceFacts.
Variables keras_model history_entry : Type.
Variable iterencode : calibration_data history_entry -> list string * option exn.

(** The three assignments of a calibration run followed by the building of
    the document: it holds the assigned values and the history. *)
Theorem assigned_params_are_saved
    (self : calibrator keras_model history_entry) (t a b : R) :
  build_calibration_data
    (set_param (set_param (set_param self "temperature" t) "platt_a" a)
       "platt_b" b)
  = Ok (CalibrationData history_entry t a b (calibration_history self)).
Proof.
  unfold build_calibration_data, get_param, set_param.
  cbn [calibration_params calibration_history].
  repeat (first [ rewrite lookup_insert_eq
                | rewrite lookup_insert_ne by discriminate ];
          cbn [mbind result_bind]).
  reflexivity.
Qed.

(** Saving never touches another file, whether it returns or raises. *)
Theorem save_calibration_params_frame
    (self : calibrator keras_model history_entry) (save_path other : string)
    (env : io_env) (fs : file_system) :
  other <> save_path ->
  snd (save_calibration_params iterencode self save_path env fs) !! other
  = fs !! other.
Proof.
  intros Hne. unfold save_calibration_params.
  destruct (build_calibration_data self); [|reflexivity].
  destruct (open_ok env); [|reflexivity].
  cbn [snd]. apply lookup_insert_ne. congruence.
Qed.

(** Once the file is opened the document is overwritten, not merged: what
    the destination held before has no influence on the file system left
    behind. *)
Theorem save_calibration_params_overwrites
    (self : calibrator keras_model history_entry) (save_path old : string)
    (env : io_env) (fs : file_system) (data : calibration_data history_entry) :
  build_calibration_data self = Ok data -> open_ok env = true ->
  snd (save_calibration_params iterencode self save_path env
         (<[save_path := old]> fs))
  = snd (save_calibration_params iterencode self save_path env fs).
Proof.
  intros Hb Ho. unfold save_calibration_params. rewrite Hb, Ho. cbn [snd].
  apply insert_insert_eq.
Qed.
End PersistenceFacts.

Lemma save_calibration_params_frame_witness :
  snd (save_calibration_params (fun _ : calibration_data unit => (["{}"], None))
         (init unit unit "m.h5") "results/calibration_params.json"
         (IoEnv true true None) ({[ "notes.txt" := "kept" ]} : file_system))
    !! "notes.txt"
  = ({[ "notes.txt" := "kept" ]} : file_system) !! "notes.txt".
Proof.
  apply (save_calibration_params_frame unit unit
           (fun _ : calibration_data unit => (["{}"], None))
           (init unit unit "m.h5") "results/calibration_params.json" "notes.txt"
           (IoEnv true true None) {[ "notes.txt" := "kept" ]}).
  discriminate.
Defined.

Lemma save_calibration_params_overwrites_witness :
  snd (save_calibration_params (fun _ : calibration_data unit => (["{}"], None))
         (init unit unit "m.h5") "p.json" (IoEnv true true None)
         (<["p.json" := "old"]> (∅ : file_system)))
  = snd (save_calibration_params (fun _ : calibration_data unit => (["{}"], None))
           (init unit unit "m.h5") "p.json" (IoEnv true true None) ∅).
Proof.
  apply (save_calibration_params_overwrites unit unit
           (fun _ => (["{}"], None)) (init unit unit "m.h5") "p.json" "old"
           (IoEnv true true None) ∅ (CalibrationData unit 1 1 0 [])).
  - unfold build_calibration_data, get_param, init. cbn [calibration_params].
    repeat (first [ rewrite lookup_insert_eq
                  | rewrite lookup_insert_ne by discriminate ];
            cbn [mbind result_bind]).
    reflexivity.
  - reflexivity.
Defined.

(** ** The orchestrator never completes *)

Section Orchestrator.
Variables keras_model images history_entry isotonic_model : Type.
Variable load_keras_model : string -> result keras_model.
Variable predict : keras_model -> images -> result (array2 R).
Variable brier_score_loss : list R -> list R -> result R.
Variable minimize :
  (R -> result (option R)) -> R -> list (R * R) -> result (list R).
Variable lr_fit : array2 R -> list nat -> result fitted_lr.
Variable isotonic_fit : list R -> list R -> result isotonic_model.
Variable plot : array2 R -> ndarray -> string -> result unit.
Variable iterencode : calibration_data history_entry -> list string * option exn.

Lemma prepare_returns_indices (m : keras_model) (X_val : images)
    (y_val : ndarray) (P : array2 R) (y : ndarray) :
  prepare_calibration_data keras_model images predict m X_val y_val = Ok (P, y) ->
  exists v, y = Arr1 v.
Proof.
  unfold prepare_calibration_data.
  destruct (predict m X_val) as [P'|e]; cbn [mbind result_bind]; [|discriminate].
  destruct (np_argmax_axis1 y_val) as [idx|e]; cbn [mbind result_bind];
    [|discriminate].
  intros H. injection H as _ <-. eexists. reflexivity.
Qed.

Lemma calibrate_model_with_model (X_val : images) (y_val : ndarray)
    (env : io_env) (self : calibrator keras_model history_entry)
    (fs : file_system) (m : keras_model) :
  model self = Some m ->
  exists e self',
    calibrate_model keras_model images history_entry isotonic_model
      load_keras_model predict brier_score_loss minimize lr_fit isotonic_fit
      plot iterencode X_val y_val env (self, fs)
    = (Raise e, (self', fs)).
Proof.
  intros Hm.
  unfold calibrate_model, st_bind, ensure_model, get_model, lift.
  cbn [fst snd]. rewrite Hm. cbn [fst snd]. rewrite Hm. cbn [fst snd].
  destruct (prepare_calibration_data keras_model images predict m X_val y_val)
    as [[P y]|e] eqn:Hprep; [|eexists; eexists; reflexivity].
  destruct (prepare_returns_indices _ _ _ _ _ Hprep) as [v ->].
  cbn [fst snd].
  destruct (Nat.eq_dec (ncols P) 0%nat) as [E | E].
  - destruct (evaluate_calibration brier_score_loss P (Arr1 v) "original")
      as [orig|e]; [|eexists; eexists; reflexivity].
    destruct (Temperature.temperature_scaling minimize P (Arr1 v))
      as [t|e]; [|eexists; eexists; reflexivity].
    unfold assign. cbn [fst snd].
    assert (Hr : Temperature._apply_temperature_scaling P t = Raise ValueError).
    { unfold Temperature._apply_temperature_scaling, Temperature._softmax,
        Temperature.np_max_axis1, Temperature.scaled_logits.
      cbn [ncols]. rewrite E. reflexivity. }
    rewrite Hr. eexists. eexists. reflexivity.
  - rewrite evaluate_calibration_arr1 by (unfold shape1; lia).
    eexists. eexists. reflexivity.
Qed.

Lemma calibrate_model_raises (X_val : images) (y_val : ndarray)
    (env : io_env) (self : calibrator keras_model history_entry)
    (fs : file_system) :
  exists e self',
    calibrate_model keras_model images history_entry isotonic_model
      load_keras_model predict brier_score_loss minimize lr_fit isotonic_fit
      plot iterencode X_val y_val env (self, fs)
    = (Raise e, (self', fs)).
Proof.
  destruct (model self) as [m|] eqn:Hm.
  - apply (calibrate_model_with_model X_val y_val env self fs m Hm).
  - destruct (load_keras_model (model_path self)) as [m|e] eqn:Hl.
    + destruct (calibrate_model_with_model X_val y_val env
                  (Calibrator (model_path self) (Some m)
                     (calibration_params self) (calibration_history self))
                  fs m eq_refl) as (e & self' & H).
      exists e, self'. rewrite <- H.
      unfold calibrate_model, st_bind, ensure_model, load_model.
      cbn [fst snd]. rewrite Hm, Hl. cbn [fst snd model]. reflexivity.
    + exists e, self.
      unfold calibrate_model, st_bind, ensure_model, load_model.
      cbn [fst snd]. rewrite Hm, Hl. reflexivity.
Qed.

(** No run of [calibrate_model] returns: whatever the libraries answer and
    whatever the labels, it raises, and the file system is left as it was
    (the parameters are never saved). *)
Theorem calibrate_model_never_returns (X_val : images) (y_val : ndarray)
    (env : io_env) (self : calibrator keras_model history_entry)
    (fs : file_system) :
  exists e self',
    calibrate_model keras_model images history_entry isotonic_model
      load_keras_model predict brier_score_loss minimize lr_fit isotonic_fit
      plot iterencode X_val y_val env (self, fs)
    = (Raise e, (self', fs)).
Proof. apply calibrate_model_raises. Qed.

End Orchestrator.

(** ** The entry point *)

Lemma model_config_lacks_num_classes : MODEL_CONFIG !! "num_classes" = None.
Proof.
  unfold MODEL_CONFIG.
  rewrite !lookup_insert_ne by discriminate. apply lookup_empty.
Qed.

Section EntryPoint.
Variables keras_model images history_entry isotonic_model : Type.
Variable load_keras_model : string -> result keras_model.
Variable predict : keras_model -> images -> result (array2 R).
Variable brier_score_loss : list R -> list R -> result R.
Variable minimize :
  (R -> result (option R)) -> R -> list (R * R) -> result (list R).
Variable lr_fit : array2 R -> list nat -> result fitted_lr.
Variable isotonic_fit : list R -> list R -> result isotonic_model.
Variable plot : array2 R -> ndarray -> string -> result unit.
Variable iterencode : calibration_data history_entry -> list string * option exn.
Variable random_images : nat -> config_value -> result images.
Variable random_labels : config_value -> nat -> result ndarray.

(** [main] returns only when the model file is missing, whatever the
    configuration holds, and it leaves the file system as it was.  With
    the [MODEL_CONFIG] of config.py, which has no key "num_classes", it
    raises KeyError as soon as the model file is there: the lookup of line
    350 fails before any data is drawn or [calibrate_model] is called. *)
Theorem main_returns_only_without_model
    (config : gmap string config_value) (env_main env : io_env)
    (fs : file_system) :
  let run cfg :=
    main keras_model images history_entry isotonic_model load_keras_model
      predict brier_score_loss minimize lr_fit isotonic_fit plot iterencode
      random_images random_labels cfg env_main env fs in
  (fst (run config) = Ok () <->
   mkdir_ok env_main = true /\ fs !! "models/mobilenet_v2_final.h5" = None) /\
  snd (run config) = fs /\
  (mkdir_ok env_main = true ->
   fs !! "models/mobilenet_v2_final.h5" <> None ->
   run MODEL_CONFIG = (Raise KeyError, fs)).
Proof.
  cbv zeta. unfold main.
  destruct (mkdir_ok env_main).
  2: { split; [|split; [reflexivity | discriminate]].
       split; [discriminate | intros [H _]; discriminate]. }
  destruct (fs !! "models/mobilenet_v2_final.h5") as [c|] eqn:Hf.
  2: { split; [|split; [reflexivity | intros _ H; contradiction H; reflexivity]].
       split; [intros _; split; reflexivity | reflexivity]. }
  split; [|split].
  - destruct (synthetic_data images random_images random_labels config)
      as [data|e]; cbn [fst snd].
    + destruct (calibrate_model_raises keras_model images history_entry
                  isotonic_model load_keras_model predict brier_score_loss
                  minimize lr_fit isotonic_fit plot iterencode
                  (fst data) (snd data) env
                  (init keras_model history_entry "models/mobilenet_v2_final.h5")
                  fs) as (e & self' & H).
      rewrite H. cbn [fst snd mbind result_bind].
      split; [discriminate | intros [_ H']; discriminate].
    + split; [discriminate | intros [_ H']; discriminate].
  - destruct (synthetic_data images random_images random_labels config)
      as [data|e]; cbn [fst snd]; [|reflexivity].
    destruct (calibrate_model_raises keras_model images history_entry
                isotonic_model load_keras_model predict brier_score_loss
                minimize lr_fit isotonic_fit plot iterencode
                (fst data) (snd data) env
                (init keras_model history_entry "models/mobilenet_v2_final.h5")
                fs) as (e & self' & H).
    rewrite H. reflexivity.
  - intros _ _. unfold synthetic_data, getitem.
    rewrite model_config_lacks_num_classes. reflexivity.
Qed.
End EntryPoint.

Lemma main_returns_only_without_model_witness :
  main unit unit unit unit (fun _ => Ok ()) (fun _ _ => Ok (Array2 2 [[1/4; 3/4]]))
    (fun _ _ => Ok 0) (fun _ x0 _ => Ok [x0])
    (fun _ _ => Ok (FittedLR [[1]] [0])) (fun _ _ => Ok ())
    (fun _ _ _ => Ok ()) (fun _ => ([], None))
    (fun _ _ => Ok ()) (fun _ _ => Ok (Arr2 (Array2 2 [[1; 0]])))
    MODEL_CONFIG (IoEnv true true None) (IoEnv true true None)
    {[ "models/mobilenet_v2_final.h5" := "model" ]}
  = (Raise KeyError, {[ "models/mobilenet_v2_final.h5" := "model" ]}).
Proof.
  apply (main_returns_only_without_model unit unit unit unit
           (fun _ => Ok ()) (fun _ _ => Ok (Array2 2 [[1/4; 3/4]]))
           (fun _ _ => Ok 0) (fun _ x0 _ => Ok [x0])
           (fun _ _ => Ok (FittedLR [[1]] [0])) (fun _ _ => Ok ())
           (fun _ _ _ => Ok ()) (fun _ => ([], None))
           (fun _ _ => Ok ()) (fun _ _ => Ok (Arr2 (Array2 2 [[1; 0]])))
           MODEL_CONFIG (IoEnv true true None) (IoEnv true true None)
           {[ "models/mobilenet_v2_final.h5" := "model" ]}).
  - reflexivity.
  - rewrite lookup_singleton_eq. discriminate.
Defined.
